(** * Verification of [example_videos/opaque_overlay_demos.py]

    The script builds a handful of clips with an external video library,
    composes them and writes one MP4 per demo.  The locally authored logic
    is the checkerboard pixel grid of [checkerboard_clip], the path
    arithmetic and directory creation of [write_video], and the order in
    which the entry point runs the demos.

    Modelling choices.
    - Python [int] is [Z]; [//] and [%] are [Z.div] and [Z.modulo], which
      round like Python's (towards minus infinity for a positive divisor).
    - A one-dimensional integer array is a [list Z] of [int64] values, a
      two-dimensional one its rows together with its column count, an RGB
      pixel a triple of channels.
    - NumPy is partial: an integer outside [int64], an array too large for
      the address space or refused by the machine make it raise, and so
      does a colour channel it cannot convert.
    - Clips of the external library are terms of an uninterpreted syntax
      ([clip]): the script only builds them and hands them on.
    - Code that can raise is in [option] (NumPy) or in a state-and-exception
      monad over a world made of a file system and a log of external calls.
    - Python floats only occur as the literals 0.5 and 0.2 handed to the
      library; they are kept as rationals. *)

From Stdlib Require Import ZArith QArith List String Ascii Lia.
From stdpp Require Import gmap strings list fin_maps.

Set Warnings "-register-all".

Local Open Scope Z_scope.

(** ** Colours, frames and clips *)

(** [tuple[int, int, int]] *)
Definition rgb : Type := Z * Z * Z.

(** A two-dimensional array: its column count and its rows.  The column
    count is kept apart from the rows because an array without rows still
    has one: the shapes (0, 5) and (0, 0) differ. *)
Record array2 (A : Type) : Type := mkArray2 { ncols : nat; cells : list (list A) }.

Arguments mkArray2 {A} ncols cells.
Arguments ncols {A} a.
Arguments cells {A} a.

Definition nrows {A : Type} (a : array2 A) : nat := length (cells a).

(** A frame is an array of shape (rows, columns, 3): a two-dimensional
    array of pixels. *)
Definition frame : Type := array2 rgb.

(** Arguments of [with_position]: a keyword or a pixel offset. *)
Inductive anchor_pos : Type :=
| center
| right
| pixels (offset : Z).

(** The constructors and combinators of the external library that the
    script calls, as syntax. *)
Inductive clip : Type :=
| ColorClip (size : Z * Z) (color : rgb) (duration : Q)
| ImageClip (img : frame)
| CompositeVideoClip (clips : list clip) (bg_color : option rgb)
| with_duration (c : clip) (duration : Q)
| with_fps (c : clip) (fps : Z)
| with_opacity (c : clip) (opacity : Q)
| with_position (c : clip) (pos : anchor_pos * anchor_pos).

(** [FPS = 24] *)
Definition FPS : Z := 24.

(** ** The fragment of NumPy used by [checkerboard_clip] *)

(** What [np.array(..., dtype=np.uint8)] does with a Python integer outside
    0..255 depends on the NumPy release: NumPy 1 wraps modulo 256 what fits
    a C long, NumPy 2 raises [OverflowError].  Both are covered. *)
Inductive cast_mode : Type :=
| Wrapping
| Checked.

(** The NumPy the script runs on: its conversion to [uint8], and whether
    the machine grants an allocation of a given number of bytes
    ([MemoryError] otherwise). *)
Record numpy_env : Type := mkNumpy { cast : cast_mode; enough_memory : Z → bool }.

Module np.

(** The values of [int64], the integer type of the arrays (and the C long
    of a 64-bit platform). *)
Definition int64 (z : Z) : Prop := - 2 ^ 63 ≤ z < 2 ^ 63.

(** Two's complement wrap-around of [int64] arithmetic. *)
Definition wrap64 (z : Z) : Z := (z + 2 ^ 63) `mod` 2 ^ 64 - 2 ^ 63.

(** An array of [bytes] bytes can be created: its size fits the address
    space (NumPy raises [ValueError] otherwise) and the machine grants it. *)
Definition allocates (env : numpy_env) (bytes : Z) : Prop :=
  bytes < 2 ^ 63 ∧ enough_memory env bytes = true.

(** [np.arange(n)] for a Python integer [n]: the [int64] array
    0, 1, ..., n-1, empty when [n <= 0].  An [n] outside [int64] gives no
    [int64] array (the array would be too long, or of a type that cannot
    index): the function that calls it raises. *)
Definition arange (env : numpy_env) (n : Z) : option (list Z) :=
  if decide (int64 n ∧ allocates env (8 * Z.max 0 n))
  then Some (Z.of_nat <$> seq 0 (Z.to_nat n))
  else None.

(** [a // d], elementwise, for an [int64] array and a Python integer: a
    divisor outside [int64] has no [int64] quotient array (NumPy 2 raises
    [OverflowError]; NumPy 1 computes in another type, which the indexing
    rejects later).  Division by zero gives 0, as NumPy does with a
    warning. *)
Definition floor_divide (env : numpy_env) (a : list Z) (d : Z) : option (list Z) :=
  if decide (int64 d ∧ allocates env (8 * Z.of_nat (length a)))
  then Some ((λ v, wrap64 (v `div` d)) <$> a)
  else None.

(** [rows[:, None] + cols[None, :]]: broadcasting a column against a row. *)
Definition outer_add (env : numpy_env) (rows cols : list Z) : option (array2 Z) :=
  if decide (allocates env (8 * (Z.of_nat (length rows) * Z.of_nat (length cols))))
  then Some (mkArray2 (length cols) ((λ r, (λ c, wrap64 (r + c)) <$> cols) <$> rows))
  else None.

(** [g % k], elementwise on a two-dimensional array, for a Python integer
    [k]; the remainder by zero is 0, as NumPy has it with a warning. *)
Definition remainder (env : numpy_env) (g : array2 Z) (k : Z) : option (array2 Z) :=
  if decide (int64 k ∧ allocates env (8 * (Z.of_nat (nrows g) * Z.of_nat (ncols g))))
  then Some (mkArray2 (ncols g)
               (fmap (M := list)
                  (fmap (M := list) (λ v, if decide (k = 0) then 0 else v `mod` k))
                  (cells g)))
  else None.

(** The Python integers one conversion to [uint8] accepts. *)
Definition converts (m : cast_mode) (z : Z) : Prop :=
  match m with
  | Wrapping => int64 z
  | Checked => 0 ≤ z < 256
  end.

(** Conversion of one Python integer to [uint8]. *)
Definition to_uint8 (m : cast_mode) (z : Z) : option Z :=
  match m with
  | Wrapping => if decide (int64 z) then Some (z `mod` 256) else None
  | Checked => if decide (0 ≤ z < 256) then Some z else None
  end.

Definition rgb_to_uint8 (m : cast_mode) (c : rgb) : option rgb :=
  let '(r, g, b) := c in
  r' ← to_uint8 m r; g' ← to_uint8 m g; b' ← to_uint8 m b; Some (r', g', b').

(** [np.array(colors, dtype=np.uint8)] for a pair of triples: an array of
    shape (2, 3), kept as the list of its two rows. *)
Definition array_uint8 (env : numpy_env) (colors : rgb * rgb) : option (list rgb) :=
  if decide (allocates env 6)
  then c0 ← rgb_to_uint8 (cast env) colors.1;
       c1 ← rgb_to_uint8 (cast env) colors.2;
       Some [c0; c1]
  else None.

(** [palette[i]] for one integer index: negative indices count from the
    end, anything outside [-n, n) raises [IndexError]. *)
Definition item (palette : list rgb) (i : Z) : option rgb :=
  let n := Z.of_nat (length palette) in
  if decide (0 ≤ i < n) then palette !! Z.to_nat i
  else if decide (- n ≤ i < 0) then palette !! Z.to_nat (i + n)
  else None.

(** [palette[grid]]: indexing with an integer array replaces every index by
    the palette row it selects; the result has three bytes per index. *)
Definition take (env : numpy_env) (palette : list rgb) (grid : array2 Z) : option frame :=
  if decide (allocates env (3 * (Z.of_nat (nrows grid) * Z.of_nat (ncols grid))))
  then mkArray2 (ncols grid) <$> mapM (mapM (item palette)) (cells grid)
  else None.

End np.

(** Two machines for the examples: NumPy 1 and NumPy 2 with room for
    arrays below one gibibyte. *)
Definition numpy1 : numpy_env := mkNumpy Wrapping (λ bytes, bytes <? 2 ^ 30).

Definition numpy2 : numpy_env := mkNumpy Checked (λ bytes, bytes <? 2 ^ 30).

(** ** [checkerboard_clip] *)

(** The default value of the [colors] argument. *)
Definition default_colors : rgb * rgb := ((20, 20, 20), (220, 220, 220)).

(** The default value of the [tile] argument. *)
Definition default_tile : Z := 40.

(** [tile = max(1, tile)] *)
Definition clamp_tile (tile : Z) : Z := Z.max 1 tile.

(** [grid = (rows[:, None] + cols[None, :]) % 2] with
    [cols = np.arange(width) // tile] and [rows = np.arange(height) // tile];
    [None] when NumPy raises. *)
Definition checkerboard_grid (env : numpy_env) (size : Z * Z) (tile : Z)
    : option (array2 Z) :=
  let '(width, height) := size in
  let tile := clamp_tile tile in
  across ← np.arange env width;
  cols ← np.floor_divide env across tile;
  down ← np.arange env height;
  rows ← np.floor_divide env down tile;
  sums ← np.outer_add env rows cols;
  np.remainder env sums 2.

(** The pixel array [frame = palette[grid]]; [None] when NumPy raises. *)
Definition checkerboard_frame (env : numpy_env) (size : Z * Z) (tile : Z)
    (colors : rgb * rgb) : option frame :=
  grid ← checkerboard_grid env size tile;
  palette ← np.array_uint8 env colors;
  np.take env palette grid.

(** [checkerboard_clip(size, duration, tile, colors)] *)
Definition checkerboard_clip (env : numpy_env) (size : Z * Z) (duration : Q)
    (tile : Z) (colors : rgb * rgb) : option clip :=
  img ← checkerboard_frame env size tile colors;
  Some (with_fps (with_duration (ImageClip img) duration) FPS).

(** Reading an array: [g[y][x]] for in-range, non-negative indices. *)
Definition at2 {A : Type} (g : array2 A) (x y : Z) : option A :=
  row ← cells g !! Z.to_nat y; row !! Z.to_nat x.

(** The colour index the specification gives to pixel (x, y) for tile length t. *)
Definition parity (t x y : Z) : Z := ((y `div` t) + (x `div` t)) `mod` 2.

(** [colors[i]] on the pair of colours. *)
Definition color_at (colors : rgb * rgb) (i : Z) : option rgb :=
  [colors.1; colors.2] !! Z.to_nat i.

(** Shape (rows, cols, 3) of a frame: the row count, the column count, and
    every row as long as the column count says (every pixel is a triple by
    its type). *)
Definition has_shape {A : Type} (rows cols : Z) (g : array2 A) : Prop :=
  Z.of_nat (nrows g) = rows ∧ Z.of_nat (ncols g) = cols ∧
  Forall (λ row, length row = ncols g) (cells g).

(** An 8-bit unsigned channel value. *)
Definition is_uint8 (v : Z) : Prop := 0 ≤ v < 256.

Definition rgb_uint8 (c : rgb) : Prop :=
  is_uint8 c.1.1 ∧ is_uint8 c.1.2 ∧ is_uint8 c.2.

(** The set of colours that occur in a frame. *)
Definition colors_of (f : frame) (c : rgb) : Prop := ∃ row, row ∈ cells f ∧ c ∈ row.

(** A frame that contains exactly two distinct colours. *)
Definition two_colors (f : frame) : Prop :=
  ∃ a b, a ≠ b ∧ ∀ c, colors_of f c ↔ c = a ∨ c = b.

(** What NumPy needs to build the grid of a size and a tile: width and
    height within [int64], a clamped tile within [int64], and the arrays
    [np.arange(width)], [np.arange(height)] and the grid allocated (the
    quotients and the remainder have the sizes of these). *)
Definition grid_buildable (env : numpy_env) (size : Z * Z) (tile : Z) : Prop :=
  np.int64 size.1 ∧ np.int64 size.2 ∧ clamp_tile tile < 2 ^ 63 ∧
  np.allocates env (8 * Z.max 0 size.1) ∧
  np.allocates env (8 * Z.max 0 size.2) ∧
  np.allocates env (8 * (Z.max 0 size.2 * Z.max 0 size.1)).

(** What NumPy needs to convert the colours: room for six bytes, and
    channels the conversion accepts. *)
Definition palette_buildable (env : numpy_env) (colors : rgb * rgb) : Prop :=
  np.allocates env 6 ∧
  (np.converts (cast env) colors.1.1.1 ∧ np.converts (cast env) colors.1.1.2 ∧
   np.converts (cast env) colors.1.2) ∧
  (np.converts (cast env) colors.2.1.1 ∧ np.converts (cast env) colors.2.1.2 ∧
   np.converts (cast env) colors.2.2).

(** What NumPy needs to build the frame: the grid, the palette, and three
    bytes per pixel. *)
Definition frame_buildable (env : numpy_env) (size : Z * Z) (tile : Z)
    (colors : rgb * rgb) : Prop :=
  grid_buildable env size tile ∧ palette_buildable env colors ∧
  np.allocates env (3 * (Z.max 0 size.2 * Z.max 0 size.1)).

(** ** Pure paths: the fragment of [pathlib] (POSIX flavour) used by [write_video] *)

(** The root of a path: none (relative), ["/"] or exactly two slashes. *)
Inductive root_kind : Type :=
| Relative
| Root
| Root2.

(** A parsed path: its root and its components (the anchor is not among
    the components here). *)
Record Path : Type := mkPath { root : root_kind; names : list string }.

(** [s.split("/")] *)
Fixpoint split_slash (s : string) : list string :=
  match s with
  | EmptyString => [EmptyString]
  | String c s' =>
      if Ascii.eqb c "/" then EmptyString :: split_slash s'
      else match split_slash s' with
           | [] => [String c EmptyString]
           | h :: t => String c h :: t
           end
  end.

(** ["/".join(l)] *)
Fixpoint join_slash (l : list string) : string :=
  match l with
  | [] => EmptyString
  | [x] => x
  | x :: rest => x +:+ "/" +:+ join_slash rest
  end.

(** [posixpath.splitroot]: one leading slash or three and more make the
    root ["/"], exactly two make the root ["//"]. *)
Definition splitroot (s : string) : root_kind * string :=
  match s with
  | String c1 s1 =>
      if Ascii.eqb c1 "/" then
        match s1 with
        | String c2 s2 =>
            if Ascii.eqb c2 "/" then
              match s2 with
              | String c3 _ => if Ascii.eqb c3 "/" then (Root, s1) else (Root2, s2)
              | EmptyString => (Root2, s2)
              end
            else (Root, s1)
        | EmptyString => (Root, s1)
        end
      else (Relative, s)
  | EmptyString => (Relative, s)
  end.

(** A component kept by the parser: not empty and not ["."]. *)
Definition kept (x : string) : Prop := x ≠ EmptyString ∧ x ≠ "."%string.

#[global] Instance kept_dec x : Decision (kept x).
Proof. unfold kept. apply _. Defined.

(** [Path(s)]: split off the root, split at slashes, drop empty and ["."]
    components; [".."] is kept. *)
Definition parse_path (s : string) : Path :=
  let '(r, rel) := splitroot s in
  mkPath r (filter kept (split_slash rel)).

(** [p / s]: an absolute right operand replaces the left one. *)
Definition truediv (p : Path) (s : string) : Path :=
  let q := parse_path s in
  match root q with
  | Relative => mkPath (root p) (names p ++ names q)
  | _ => q
  end.

(** [p.parent]: drop the last component; a path without components is its
    own parent. *)
Definition parent (p : Path) : Path := mkPath (root p) (removelast (names p)).

(** [p.as_posix()] (equal to [str(p)] on POSIX). *)
Definition as_posix (p : Path) : string :=
  match root p with
  | Relative => match names p with [] => "." | _ => join_slash (names p) end
  | Root => "/" +:+ join_slash (names p)
  | Root2 => "//" +:+ join_slash (names p)
  end.

(** A string without a slash. *)
Fixpoint no_slash (s : string) : Prop :=
  match s with
  | EmptyString => True
  | String c s' => c ≠ "/"%char ∧ no_slash s'
  end.

(** The components the parser produces: kept, and free of slashes. *)
Definition component (x : string) : Prop := kept x ∧ no_slash x.

(** ** The file system seen through [os.mkdir], [is_dir] and the encoder *)

Inductive node : Type :=
| Dir
| File.

(** Error numbers; Python raises [FileNotFoundError], [FileExistsError],
    [NotADirectoryError] and [IsADirectoryError] for them. *)
Inductive errno : Type :=
| ENOENT
| EEXIST
| ENOTDIR
| EISDIR.

#[global] Instance errno_eq_dec : EqDecision errno.
Proof. solve_decision. Defined.

(** A file system maps the component list of an entry, counted from the
    root, to its kind.  The root directory is always there.  Symbolic links
    and permissions are outside the model. *)
Definition lookup_node (fs : gmap (list string) node) (k : list string) : option node :=
  match k with
  | [] => Some Dir
  | _ => fs !! k
  end.

(** Resolution of directory components from the directory [cur]: every
    component has to name a directory, [".."] moves to the parent (the
    root is its own parent). *)
Fixpoint walk (fs : gmap (list string) node) (cur : list string)
    (ns : list string) : errno + list string :=
  match ns with
  | [] => inr cur
  | n :: rest =>
      if decide (n = "..") then walk fs (removelast cur) rest
      else match lookup_node fs (cur ++ [n]) with
           | Some Dir => walk fs (cur ++ [n]) rest
           | Some File => inl ENOTDIR
           | None => inl ENOENT
           end
  end.

(** Where resolution starts: the root, or the working directory for a
    relative path. *)
Definition start_dir (cwd : list string) (p : Path) : list string :=
  match root p with
  | Relative => cwd
  | _ => []
  end.

(** [os.mkdir(p)]: the directories above the last component must exist;
    the last component must not. *)
Definition os_mkdir (fs : gmap (list string) node) (cwd : list string)
    (p : Path) : errno + gmap (list string) node :=
  match last (names p) with
  | None => inl EEXIST
  | Some n =>
      match walk fs (start_dir cwd p) (removelast (names p)) with
      | inl e => inl e
      | inr d =>
          if decide (n = "..") then inl EEXIST
          else match lookup_node fs (d ++ [n]) with
               | Some _ => inl EEXIST
               | None => inr (<[d ++ [n] := Dir]> fs)
               end
      end
  end.

(** [p.is_dir()] *)
Definition is_dir (fs : gmap (list string) node) (cwd : list string) (p : Path) : bool :=
  match walk fs (start_dir cwd p) (names p) with
  | inr _ => true
  | inl _ => false
  end.

(** Opening [p] for writing, as ffmpeg does with its output file: the
    directory must exist, an existing regular file is overwritten. *)
Definition os_create (fs : gmap (list string) node) (cwd : list string)
    (p : Path) : errno + gmap (list string) node :=
  match last (names p) with
  | None => inl EISDIR
  | Some n =>
      match walk fs (start_dir cwd p) (removelast (names p)) with
      | inl e => inl e
      | inr d =>
          if decide (n = "..") then inl EISDIR
          else match lookup_node fs (d ++ [n]) with
               | Some Dir => inl EISDIR
               | Some File => inr fs
               | None => inr (<[d ++ [n] := File]> fs)
               end
      end
  end.

(** [p.is_file()], used to state what a demo leaves on disk. *)
Definition is_file (fs : gmap (list string) node) (cwd : list string) (p : Path) : bool :=
  match last (names p) with
  | None => false
  | Some n =>
      match walk fs (start_dir cwd p) (removelast (names p)) with
      | inl _ => false
      | inr d =>
          if decide (n = "..") then false
          else match lookup_node fs (d ++ [n]) with
               | Some File => true
               | _ => false
               end
      end
  end.

(** A file system that holds directories only. *)
Definition no_regular_file (fs : gmap (list string) node) : Prop :=
  ∀ k, fs !! k ≠ Some File.

(** ** The world and the monad of the script *)

(** Keyword arguments of [clip.write_videofile]. *)
Record encode_args : Type := mkArgs {
  arg_fps : Z;
  arg_codec : string;
  arg_preset : string;
  arg_bitrate : string;
  arg_audio : bool;
  arg_logger : option string
}.

(** Calls the script makes into [pathlib] and the video library, in the
    order it makes them. *)
Inductive event : Type :=
| ev_mkdir (p : Path) (parents exist_ok : bool)
| ev_write_videofile (c : clip) (filename : string) (a : encode_args).

Record world : Type := mkWorld {
  w_fs : gmap (list string) node;
  w_cwd : list string;
  w_log : list event
}.

(** Exceptions: an [OSError] of the [os] module with its error number, an
    exception raised inside NumPy ([OverflowError], [ValueError],
    [MemoryError]), and the plain [OSError] with which the video library
    reports that ffmpeg could not open the output or could not encode. *)
Inductive exn : Type :=
| OSError (e : errno)
| NumpyError
| EncoderError.

Inductive outcome (A : Type) : Type :=
| Ret (a : A)
| Raise (e : exn).

Arguments Ret {A} a.
Arguments Raise {A} e.

(** A computation returns or raises, and leaves a world behind either way. *)
Definition M (A : Type) : Type := world → outcome A * world.

Definition ret {A : Type} (a : A) : M A := λ w, (Ret a, w).

Definition raise {A : Type} (e : exn) : M A := λ w, (Raise e, w).

Definition bind {A B : Type} (m : M A) (k : A → M B) : M B :=
  λ w, match m w with
       | (Ret a, w') => k a w'
       | (Raise e, w') => (Raise e, w')
       end.

(** [try: m / except e: h e] *)
Definition catch {A : Type} (m : M A) (h : exn → M A) : M A :=
  λ w, match m w with
       | (Ret a, w') => (Ret a, w')
       | (Raise e, w') => h e w'
       end.

Declare Scope script_scope.
Delimit Scope script_scope with script.
Notation "x <- m ;; k" := (bind m (λ x, k))
  (at level 100, m at next level, right associativity) : script_scope.
Notation "m ;; k" := (bind m (λ _, k))
  (at level 100, right associativity) : script_scope.
Local Open Scope script_scope.

Definition emit (e : event) : M unit :=
  λ w, (Ret tt, mkWorld (w_fs w) (w_cwd w) (w_log w ++ [e])).

(** A NumPy failure surfaces as an exception. *)
Definition lift_np {A : Type} (o : option A) : M A :=
  match o with
  | Some a => ret a
  | None => raise NumpyError
  end.

Definition os_mkdir_call (p : Path) : M unit :=
  λ w, match os_mkdir (w_fs w) (w_cwd w) p with
       | inr fs' => (Ret tt, mkWorld fs' (w_cwd w) (w_log w))
       | inl e => (Raise (OSError e), w)
       end.

Definition is_dir_call (p : Path) : M bool :=
  λ w, (Ret (is_dir (w_fs w) (w_cwd w) p), w).

(** The handler shared by both forms of [Path.mkdir] for an [OSError] other
    than a missing parent: [if not exist_ok or not self.is_dir(): raise]. *)
Definition mkdir_exists (p : Path) (exist_ok : bool) (e : exn) : M unit :=
  if exist_ok then
    d <- is_dir_call p ;; if d then ret tt else raise e
  else raise e.

(** [Path.mkdir(parents=False, exist_ok=...)]: one [os.mkdir]; a missing
    parent is re-raised, any other [OSError] goes to the handler above. *)
Definition mkdir_flat (p : Path) (exist_ok : bool) : M unit :=
  catch (os_mkdir_call p)
    (λ e, match e with
          | OSError ENOENT => raise e
          | OSError _ => mkdir_exists p exist_ok e
          | _ => raise e
          end).

(** [Path.mkdir(parents=True, exist_ok=...)], by recursion on the
    components read from the last one: when [os.mkdir] reports a missing
    parent, the parent is created with [parents=True, exist_ok=True] and
    then the directory itself with [parents=False]; a path that is its own
    parent re-raises. *)
Fixpoint mkdir_parents (r : root_kind) (rev_names : list string)
    (exist_ok : bool) : M unit :=
  let p := mkPath r (rev rev_names) in
  catch (os_mkdir_call p)
    (λ e, match e with
          | OSError ENOENT =>
              match rev_names with
              | [] => raise e
              | _ :: up => mkdir_parents r up true ;; mkdir_flat p exist_ok
              end
          | OSError _ => mkdir_exists p exist_ok e
          | _ => raise e
          end).

(** [p.mkdir(parents=..., exist_ok=...)] *)
Definition Path_mkdir (p : Path) (parents exist_ok : bool) : M unit :=
  if parents then mkdir_parents (root p) (rev (names p)) exist_ok
  else mkdir_flat p exist_ok.

(** What a call of [Path.mkdir] on [p] from the world [w] may result in:
    the working directory and the log are untouched, entries are only
    added and none of them is a regular file; on return [p] is a directory;
    the only errors are an existing entry or a regular file on the way,
    and with [exist_ok] both need a regular file to be there. *)
Definition mkdir_post (p : Path) (exist_ok : bool) (w : world)
    (res : outcome unit * world) : Prop :=
  w_cwd res.2 = w_cwd w ∧ w_log res.2 = w_log w ∧ w_fs w ⊆ w_fs res.2 ∧
  (no_regular_file (w_fs w) → no_regular_file (w_fs res.2)) ∧
  match res.1 with
  | Ret _ => is_dir (w_fs res.2) (w_cwd w) p = true
  | Raise e => (e = OSError EEXIST ∨ e = OSError ENOTDIR) ∧
               (exist_ok = true → ¬ no_regular_file (w_fs w))
  end.

(** ** The script *)

Section Script.

(** The NumPy the script runs on. *)
Variable numpy : numpy_env.

(** [str(Path(__file__).resolve().parent)]: the directory of the script. *)
Variable script_dir : string.

(** Whether the external encoder manages to encode a clip into a file it
    could open (codec available, clip renderable, ...). *)
Variable encoder_ok : clip → string → bool.

(** [clip.write_videofile(filename, ...)], the external encode-and-write
    operation: ffmpeg opens the output file, which needs the directory to
    exist and the file not to be a directory, and encodes into it.  The
    video library reports either failure as a plain [OSError] carrying
    ffmpeg's message.  What a failed encoding leaves in the file is outside
    the model. *)
Definition write_videofile (c : clip) (filename : string) (a : encode_args) : M unit :=
  λ w, match os_create (w_fs w) (w_cwd w) (parse_path filename) with
       | inl _ => (Raise EncoderError, w)
       | inr fs' =>
           if encoder_ok c filename
           then (Ret tt, mkWorld fs' (w_cwd w) (w_log w))
           else (Raise EncoderError, w)
       end.

(** [Path(__file__).resolve().parent] *)
Definition here : Path := parse_path script_dir.

(** The keyword arguments [write_video] passes. *)
Definition video_args : encode_args :=
  mkArgs FPS "libx264" "ultrafast" "500k" false None.

(** [target = Path(__file__).resolve().parent / filename] *)
Definition target_of (filename : string) : Path := truediv here filename.

(** [write_video(clip, filename)] *)
Definition write_video (c : clip) (filename : string) : M unit :=
  let target := target_of filename in
  emit (ev_mkdir (parent target) true true) ;;
  Path_mkdir (parent target) true true ;;
  emit (ev_write_videofile c (as_posix target) video_args) ;;
  write_videofile c (as_posix target) video_args.

(** The clip each demo composes. *)
Definition opaque_overlay_clip : clip :=
  let duration := 2%Q in
  let size := (320, 240) in
  let background := with_fps (ColorClip size (0, 0, 255) duration) FPS in
  let overlay := with_opacity (ColorClip size (0, 255, 0) duration) 0.5%Q in
  CompositeVideoClip [background; overlay] None.

Definition opaque_overlay_demo (suffix : string) : M unit :=
  write_video opaque_overlay_clip ("./out/opaque_overlay_demo_hee" +:+ suffix +:+ ".mp4").

Definition mask_ignored_clip : clip :=
  let duration := 2%Q in
  let size := (320, 240) in
  let background := with_fps (ColorClip size (255, 0, 0) duration) FPS in
  let square := ColorClip (120, 120) (255, 255, 255) duration in
  let square := with_opacity (with_position square (center, center)) 0.2%Q in
  CompositeVideoClip [background; square] None.

Definition mask_ignored_demo (suffix : string) : M unit :=
  write_video mask_ignored_clip ("./out/mask_ignored_demo_hee" +:+ suffix +:+ ".mp4").

Definition background_transparency_clip (checker : clip) : clip :=
  let duration := 2%Q in
  let size := (320, 240) in
  let translucent_bg :=
    with_fps (with_opacity (ColorClip size (0, 0, 255) duration) 0.5%Q) FPS in
  let opaque_bar :=
    with_fps (with_position (ColorClip (160, 240) (0, 255, 0) duration) (right, center)) FPS in
  let layered := CompositeVideoClip [translucent_bg; opaque_bar] None in
  CompositeVideoClip [checker; layered] None.

Definition background_transparency_demo (suffix : string) : M unit :=
  checker <- lift_np (checkerboard_clip numpy (320, 240) 2%Q default_tile default_colors) ;;
  write_video (background_transparency_clip checker)
    ("./out/background_transparency_demo_hee" +:+ suffix +:+ ".mp4").

Definition dual_mask_blend_clip : clip :=
  let duration := 2%Q in
  let size := (320, 240) in
  let base := with_fps (with_opacity (ColorClip size (0, 0, 255) duration) 0.5%Q) FPS in
  let overlay :=
    with_fps
      (with_opacity
         (with_position (ColorClip (200, 160) (255, 255, 0) duration) (center, center))
         0.5%Q) FPS in
  CompositeVideoClip [base; overlay] None.

Definition dual_mask_blend_demo (suffix : string) : M unit :=
  write_video dual_mask_blend_clip ("./out/dual_mask_blend_demo_hee" +:+ suffix +:+ ".mp4").

Definition clipped_mask_clip : clip :=
  let duration := 2%Q in
  let size := (320, 240) in
  let background := with_fps (ColorClip size (0, 0, 0) duration) FPS in
  let offscreen :=
    with_fps
      (with_opacity
         (with_position (ColorClip (200, 200) (255, 255, 255) duration) (pixels (-80), center))
         0.5%Q) FPS in
  CompositeVideoClip [background; offscreen] None.

Definition clipped_mask_demo (suffix : string) : M unit :=
  write_video clipped_mask_clip ("./out/clipped_mask_demo_hee" +:+ suffix +:+ ".mp4").

(** The body of [if __name__ == "__main__":]; [suffix] is [args.suffix],
    the value of the optional [--suffix] flag (the empty string by default). *)
Definition main (suffix : string) : M unit :=
  opaque_overlay_demo suffix ;;
  mask_ignored_demo suffix ;;
  background_transparency_demo suffix ;;
  dual_mask_blend_demo suffix ;;
  clipped_mask_demo suffix.

(** The five demos with the hard-coded part of their file names, in the
    order of the entry point. *)
Definition demo_table : list (string * (string → M unit)) :=
  [("./out/opaque_overlay_demo_hee", opaque_overlay_demo);
   ("./out/mask_ignored_demo_hee", mask_ignored_demo);
   ("./out/background_transparency_demo_hee", background_transparency_demo);
   ("./out/dual_mask_blend_demo_hee", dual_mask_blend_demo);
   ("./out/clipped_mask_demo_hee", clipped_mask_demo)]%string.

(** The directory [out] next to the script, where the demos put their files. *)
Definition out_dir : Path := truediv here "./out".

End Script.


(** A disk for the examples: the directory of the script and nothing else. *)
Definition script_disk : gmap (list string) node :=
  {[ ["srv"%string] := Dir; ["srv"; "demo"]%string := Dir ]}.

(** The file names handed to the encoder, in the order of the calls. *)
Definition written (k : list event) : list string :=
  omap (λ e, match e with
             | ev_write_videofile _ filename _ => Some filename
             | ev_mkdir _ _ _ => None
             end) k.

(** Running a list of calls one after the other, as a block of statements does. *)
Fixpoint run_seq (ds : list (M unit)) : M unit :=
  match ds with
  | [] => ret tt
  | d :: ds' => d ;; run_seq ds'
  end.

(** Sequential execution of a list of calls: each one starts in the world
    its predecessor left on returning, and the first one that raises ends
    the run. *)
Inductive runs_in_order : list (M unit) → world → outcome unit * world → Prop :=
| runs_done w : runs_in_order [] w (Ret tt, w)
| runs_raise d ds w e w' :
    d w = (Raise e, w') → runs_in_order (d :: ds) w (Raise e, w')
| runs_next d ds w w' res :
    d w = (Ret tt, w') → runs_in_order ds w' res → runs_in_order (d :: ds) w res.

(** * Properties *)

(** ** Arrays *)

(** Linear arithmetic with the bounds of [int64] written out. *)
Ltac pow_lia :=
  change (2 ^ 60) with 1152921504606846976 in *;
  change (2 ^ 63) with 9223372036854775808 in *;
  change (2 ^ 64) with 18446744073709551616 in *;
  lia.

Section Arrays.

Implicit Types (env : numpy_env) (f : frame) (g : array2 Z).

Lemma wrap64_id z : np.int64 z → np.wrap64 z = z.
Proof.
  unfold np.int64, np.wrap64. intros Hz.
  rewrite Z.mod_small by pow_lia. pow_lia.
Qed.

Lemma arange_length env n l : np.arange env n = Some l → length l = Z.to_nat n.
Proof.
  unfold np.arange. case_decide; [| done]. intros [= <-].
  by rewrite length_fmap, length_seq.
Qed.

Lemma arange_lookup env n l x :
  np.arange env n = Some l → 0 ≤ x < n → l !! Z.to_nat x = Some x.
Proof.
  unfold np.arange. case_decide; [| done]. intros [= <-] Hx.
  rewrite list_lookup_fmap, lookup_seq_lt by pow_lia.
  simpl. f_equal. pow_lia.
Qed.

(** The indices of a built [np.arange(n)] are far from the ends of [int64]. *)
Lemma arange_small env n l : np.arange env n = Some l → n < 2 ^ 60.
Proof.
  unfold np.arange, np.allocates. case_decide as H; [| done]. intros _.
  destruct H as (_ & Hb & _). pow_lia.
Qed.

Lemma clamp_tile_ge_1 t : 1 ≤ clamp_tile t.
Proof. unfold clamp_tile. pow_lia. Qed.

Lemma clamp_tile_pos t : 0 < t → clamp_tile t = t.
Proof. unfold clamp_tile. pow_lia. Qed.

Lemma clamp_tile_nonpos t : t ≤ 0 → clamp_tile t = 1.
Proof. unfold clamp_tile. pow_lia. Qed.

Lemma div_tile_range T x n : 1 ≤ T → 0 ≤ x < n → 0 ≤ x `div` T < n.
Proof.
  intros HT Hx. split; [apply Z.div_pos; pow_lia |].
  assert (x `div` T ≤ x) by (apply Z.div_le_upper_bound; nia). pow_lia.
Qed.

(** The entry of the grid at a pixel, computed in [int64], is the parity
    of its tile: nothing wraps around for indices below 2^60. *)
Lemma grid_entry T x y :
  1 ≤ T → 0 ≤ x < 2 ^ 60 → 0 ≤ y < 2 ^ 60 →
  np.wrap64 (np.wrap64 (y `div` T) + np.wrap64 (x `div` T)) `mod` 2 = parity T x y.
Proof.
  intros HT Hx Hy.
  pose proof (div_tile_range T x _ HT Hx). pose proof (div_tile_range T y _ HT Hy).
  rewrite (wrap64_id (y `div` T)), (wrap64_id (x `div` T)) by (unfold np.int64; pow_lia).
  rewrite wrap64_id by (unfold np.int64; pow_lia). done.
Qed.

(** The grid is built exactly when NumPy has what it needs for it. *)
Lemma grid_Some_buildable env w h t g :
  checkerboard_grid env (w, h) t = Some g → grid_buildable env (w, h) t.
Proof.
  unfold checkerboard_grid, grid_buildable. simpl.
  destruct (np.arange env w) as [across |] eqn:Hw; [| done]. simpl.
  destruct (np.floor_divide env across (clamp_tile t)) as [cols |] eqn:Hc; [| done]. simpl.
  destruct (np.arange env h) as [down |] eqn:Hh; [| done]. simpl.
  destruct (np.floor_divide env down (clamp_tile t)) as [rows |] eqn:Hr; [| done]. simpl.
  destruct (np.outer_add env rows cols) as [sums |] eqn:Hs; [| done]. simpl.
  intros _.
  pose proof (arange_length _ _ _ Hw) as Hlw. pose proof (arange_length _ _ _ Hh) as Hlh.
  unfold np.arange in Hw, Hh. unfold np.floor_divide in Hc, Hr. unfold np.outer_add in Hs.
  repeat case_decide; try done.
  injection Hc as <-. injection Hr as <-.
  rewrite !length_fmap, Hlw, Hlh in *.
  repeat match goal with H : _ ∧ _ |- _ => destruct H end.
  unfold np.int64 in *.
  split; [done |]. split; [done |]. split; [pow_lia |]. split; [done |]. split; [done |].
  by replace (Z.max 0 h * Z.max 0 w) with (Z.of_nat (Z.to_nat h) * Z.of_nat (Z.to_nat w)) by pow_lia.
Qed.

Lemma arange_built env n :
  np.int64 n → np.allocates env (8 * Z.max 0 n) →
  np.arange env n = Some (Z.of_nat <$> seq 0 (Z.to_nat n)).
Proof. intros. unfold np.arange. by rewrite decide_True. Qed.

Lemma floor_divide_built env (a : list Z) d :
  np.int64 d → np.allocates env (8 * Z.of_nat (length a)) →
  np.floor_divide env a d = Some ((λ v, np.wrap64 (v `div` d)) <$> a).
Proof. intros. unfold np.floor_divide. by rewrite decide_True. Qed.

Lemma outer_add_built env (rows cols : list Z) :
  np.allocates env (8 * (Z.of_nat (length rows) * Z.of_nat (length cols))) →
  np.outer_add env rows cols
  = Some (mkArray2 (length cols) ((λ r, (λ c, np.wrap64 (r + c)) <$> cols) <$> rows)).
Proof. intros. unfold np.outer_add. by rewrite decide_True. Qed.

Lemma remainder_built env g k :
  np.int64 k → np.allocates env (8 * (Z.of_nat (nrows g) * Z.of_nat (ncols g))) →
  np.remainder env g k
  = Some (mkArray2 (ncols g)
            (fmap (M := list)
               (fmap (M := list) (λ v, if decide (k = 0) then 0 else v `mod` k))
               (cells g))).
Proof. intros. unfold np.remainder. by rewrite decide_True. Qed.

Lemma grid_built env w h t :
  grid_buildable env (w, h) t →
  ∃ g, checkerboard_grid env (w, h) t = Some g ∧
       nrows g = Z.to_nat h ∧ ncols g = Z.to_nat w ∧
       (∀ row, row ∈ cells g →
          length row = Z.to_nat w ∧ Forall (λ v, v = 0 ∨ v = 1) row) ∧
       (∀ x y, 0 ≤ x < w → 0 ≤ y < h →
          at2 g x y = Some (parity (clamp_tile t) x y)).
Proof.
  unfold grid_buildable. simpl. intros (Hw & Hh & Ht & Haw & Hah & Hag).
  pose proof (clamp_tile_ge_1 t) as HT.
  assert (HTi : np.int64 (clamp_tile t)) by (unfold np.int64; pow_lia).
  assert (Hsw : w < 2 ^ 60) by (destruct Haw; pow_lia).
  assert (Hsh : h < 2 ^ 60) by (destruct Hah; pow_lia).
  assert (Hzw : Z.of_nat (Z.to_nat w) = Z.max 0 w) by lia.
  assert (Hzh : Z.of_nat (Z.to_nat h) = Z.max 0 h) by lia.
  unfold checkerboard_grid.
  rewrite (arange_built env w), (arange_built env h) by done. simpl.
  rewrite !floor_divide_built by (done || by rewrite length_fmap, length_seq, ?Hzw, ?Hzh).
  simpl.
  rewrite outer_add_built by (by rewrite !length_fmap, !length_seq, Hzw, Hzh). simpl.
  rewrite remainder_built
    by ((unfold np.int64; pow_lia)
        || (unfold nrows; simpl; by rewrite !length_fmap, !length_seq, Hzw, Hzh)).
  eexists. split; [reflexivity |]. unfold nrows. simpl.
  split; [by rewrite !length_fmap, length_seq |].
  split; [by rewrite !length_fmap, length_seq |]. split.
  - intros row Hrow. rewrite <- !list_fmap_compose in Hrow.
    apply list_elem_of_fmap in Hrow as (r & -> & _). simpl.
    split; [by rewrite !length_fmap, length_seq |].
    rewrite <- !list_fmap_compose. apply Forall_fmap, Forall_forall.
    intros v _. simpl.
    match goal with |- ?a `mod` 2 = 0 ∨ _ => pose proof (Z.mod_pos_bound a 2) end. lia.
  - intros x y Hx Hy. unfold at2. simpl.
    rewrite !list_lookup_fmap, lookup_seq_lt by lia. simpl.
    rewrite !list_lookup_fmap, lookup_seq_lt by lia. simpl. f_equal.
    replace (Z.of_nat (Z.to_nat y)) with y by lia.
    replace (Z.of_nat (Z.to_nat x)) with x by lia.
    apply grid_entry; lia.
Qed.

Lemma item_bit c0 c1 v :
  v = 0 ∨ v = 1 → np.item [c0; c1] v = [c0; c1] !! Z.to_nat v.
Proof. by intros [-> | ->]. Qed.

Lemma elem_of_two {A : Type} (x a b : A) : x ∈ [a; b] → x = a ∨ x = b.
Proof.
  intros [-> | Hx]%elem_of_cons; [by left |].
  apply elem_of_cons in Hx as [-> | Hx]; [by right |].
  by apply elem_of_nil in Hx.
Qed.

Lemma to_uint8_range m z b : np.to_uint8 m z = Some b → is_uint8 b.
Proof.
  unfold is_uint8. destruct m; simpl; case_decide; try done; intros [= <-]; [| done].
  apply Z.mod_pos_bound. pow_lia.
Qed.

Lemma to_uint8_id m z : is_uint8 z → np.to_uint8 m z = Some z.
Proof.
  unfold is_uint8. intros Hz. destruct m; simpl.
  - rewrite decide_True by (unfold np.int64; pow_lia). by rewrite Z.mod_small.
  - by rewrite decide_True.
Qed.

Lemma to_uint8_is_Some m z : is_Some (np.to_uint8 m z) ↔ np.converts m z.
Proof.
  destruct m; simpl; case_decide; split; try done; try (by eexists); by intros [? ?].
Qed.

Lemma rgb_to_uint8_range m c c' : np.rgb_to_uint8 m c = Some c' → rgb_uint8 c'.
Proof.
  destruct c as [[r g] b]. unfold np.rgb_to_uint8. intros Hc.
  destruct (np.to_uint8 m r) as [r' |] eqn:Hr; [| done].
  destruct (np.to_uint8 m g) as [g' |] eqn:Hg; [| done].
  destruct (np.to_uint8 m b) as [b' |] eqn:Hb; [| done].
  simpl in Hc. injection Hc as <-.
  unfold rgb_uint8. simpl. split; [| split]; eauto using to_uint8_range.
Qed.

Lemma rgb_to_uint8_id m c : rgb_uint8 c → np.rgb_to_uint8 m c = Some c.
Proof.
  destruct c as [[r g] b]. intros (Hr & Hg & Hb). simpl in *.
  unfold np.rgb_to_uint8. by rewrite !to_uint8_id.
Qed.

Lemma rgb_to_uint8_is_Some m c :
  is_Some (np.rgb_to_uint8 m c)
  ↔ np.converts m c.1.1 ∧ np.converts m c.1.2 ∧ np.converts m c.2.
Proof.
  destruct c as [[r g] b]. simpl. rewrite <- !to_uint8_is_Some.
  unfold np.rgb_to_uint8.
  destruct (np.to_uint8 m r), (np.to_uint8 m g), (np.to_uint8 m b); simpl;
    split; try (by intros [? ?]); try (by intros (? & ? & [? ?]));
    try (by intros (? & [? ?] & ?)); try (by intros ([? ?] & ? & ?)); eauto.
Qed.

(** A converted palette has exactly two rows, both with 8-bit channels. *)
Lemma array_uint8_Some env colors palette :
  np.array_uint8 env colors = Some palette →
  ∃ c0 c1, palette = [c0; c1] ∧ rgb_uint8 c0 ∧ rgb_uint8 c1.
Proof.
  unfold np.array_uint8. case_decide; [| done]. intros Hp.
  destruct (np.rgb_to_uint8 (cast env) colors.1) as [c0 |] eqn:H0; [| done].
  destruct (np.rgb_to_uint8 (cast env) colors.2) as [c1 |] eqn:H1; [| done].
  simpl in Hp. injection Hp as <-.
  exists c0, c1. eauto using rgb_to_uint8_range.
Qed.

Lemma array_uint8_id env colors palette :
  np.array_uint8 env colors = Some palette →
  rgb_uint8 colors.1 → rgb_uint8 colors.2 → palette = [colors.1; colors.2].
Proof.
  unfold np.array_uint8. case_decide; [| done]. intros Hp H1 H2.
  rewrite !rgb_to_uint8_id in Hp by done. simpl in Hp. congruence.
Qed.

(** The palette is built exactly when NumPy has what it needs for it. *)
Lemma array_uint8_is_Some env colors :
  is_Some (np.array_uint8 env colors) ↔ palette_buildable env colors.
Proof.
  unfold palette_buildable, np.array_uint8.
  rewrite <- !rgb_to_uint8_is_Some.
  case_decide as Ha.
  - destruct (np.rgb_to_uint8 (cast env) colors.1), (np.rgb_to_uint8 (cast env) colors.2);
      simpl; split; try (by intros [? ?]); try (by intros (? & ? & [? ?]));
      try (by intros (? & [? ?] & ?)); eauto.
  - split; [by intros [? ?] | by intros [? _]].
Qed.

Lemma uint8_palette_buildable env colors :
  np.allocates env 6 → rgb_uint8 colors.1 → rgb_uint8 colors.2 →
  palette_buildable env colors.
Proof.
  intros Ha H1 H2. apply array_uint8_is_Some. unfold np.array_uint8.
  rewrite decide_True, !rgb_to_uint8_id by done. by eexists.
Qed.

(** Everything about a frame that was built: NumPy had what it needed, and
    the frame has the grid's shape and, at each pixel, the palette row the
    grid selects. *)
Lemma frame_spec env w h t colors f :
  checkerboard_frame env (w, h) t colors = Some f →
  frame_buildable env (w, h) t colors ∧
  ∃ g c0 c1,
    checkerboard_grid env (w, h) t = Some g ∧
    np.array_uint8 env colors = Some [c0; c1] ∧ rgb_uint8 c0 ∧ rgb_uint8 c1 ∧
    nrows f = Z.to_nat h ∧ ncols f = Z.to_nat w ∧
    (∀ row, row ∈ cells f → length row = Z.to_nat w ∧ Forall (λ c, c ∈ [c0; c1]) row) ∧
    (∀ x y, 0 ≤ x < w → 0 ≤ y < h →
       at2 g x y = Some (parity (clamp_tile t) x y) ∧
       at2 f x y = [c0; c1] !! Z.to_nat (parity (clamp_tile t) x y)).
Proof.
  unfold checkerboard_frame. intros Hf.
  destruct (checkerboard_grid env (w, h) t) as [g |] eqn:Hg; [| done]. simpl in Hf.
  destruct (np.array_uint8 env colors) as [palette |] eqn:Hp; [| done]. simpl in Hf.
  pose proof (grid_Some_buildable _ _ _ _ _ Hg) as Hgb.
  destruct (grid_built env w h t Hgb) as (g' & Hg' & Hnr & Hnc & Hrows & Hat).
  assert (g' = g) as -> by congruence.
  destruct (array_uint8_Some _ _ _ Hp) as (c0 & c1 & -> & Hc0 & Hc1).
  unfold np.take in Hf. case_decide as Ha; [| done].
  destruct (mapM (mapM (np.item [c0; c1])) (cells g)) as [fc |] eqn:Hm; [| done].
  simpl in Hf. injection Hf as <-.
  apply mapM_Some in Hm.
  split.
  - split; [done |]. split; [apply array_uint8_is_Some; by eexists |]. simpl.
    rewrite Hnr, Hnc in Ha.
    by replace (Z.max 0 h * Z.max 0 w) with (Z.of_nat (Z.to_nat h) * Z.of_nat (Z.to_nat w)) by pow_lia.
  - exists g, c0, c1. split; [done |]. split; [done |]. split; [done |]. split; [done |].
    unfold nrows in *. simpl.
    split; [by rewrite <- (Forall2_length _ _ _ Hm) |]. split; [done |]. split.
    + intros frow Hin. apply list_elem_of_lookup in Hin as [i Hi].
      destruct (Forall2_lookup_r _ _ _ _ _ Hm Hi) as (row & Hrow & Hmr).
      assert (Hrin : row ∈ cells g) by (apply list_elem_of_lookup; eauto).
      destruct (Hrows row Hrin) as [Hlen Hbits].
      split; [by rewrite <- (length_mapM _ _ _ Hmr) |].
      apply mapM_Some in Hmr. apply Forall_forall. intros c Hc.
      apply list_elem_of_lookup in Hc as [j Hj].
      destruct (Forall2_lookup_r _ _ _ _ _ Hmr Hj) as (v & Hv & Hitem).
      rewrite Forall_forall in Hbits.
      assert (Hbit : v = 0 ∨ v = 1) by (apply Hbits, list_elem_of_lookup; eauto).
      rewrite item_bit in Hitem by done.
      apply list_elem_of_lookup. eauto.
    + intros x y Hx Hy. pose proof (Hat x y Hx Hy) as Hxy. split; [done |].
      unfold at2 in *. simpl.
      destruct (cells g !! Z.to_nat y) as [row |] eqn:Hrow; [| done]. simpl in Hxy.
      destruct (Forall2_lookup_l _ _ _ _ _ Hm Hrow) as (frow & -> & Hfrow).
      simpl. apply mapM_Some in Hfrow.
      destruct (Forall2_lookup_l _ _ _ _ _ Hfrow Hxy) as (c & -> & Hc).
      rewrite <- Hc. apply item_bit. unfold parity.
      match goal with |- ?a `mod` 2 = 0 ∨ _ => pose proof (Z.mod_pos_bound a 2) end. pow_lia.
Qed.

(** The frame is built whenever NumPy has what it needs. *)
Lemma frame_exists env w h t colors :
  frame_buildable env (w, h) t colors →
  is_Some (checkerboard_frame env (w, h) t colors).
Proof.
  intros (Hgb & Hpb & Ha). simpl in Ha.
  destruct (grid_built env w h t Hgb) as (g & Hg & Hnr & Hnc & Hrows & _).
  apply array_uint8_is_Some in Hpb as [palette Hp].
  destruct (array_uint8_Some _ _ _ Hp) as (c0 & c1 & -> & _).
  unfold checkerboard_frame. rewrite Hg, Hp. simpl.
  unfold np.take. rewrite decide_True.
  2:{ rewrite Hnr, Hnc.
      by replace (Z.of_nat (Z.to_nat h) * Z.of_nat (Z.to_nat w))
        with (Z.max 0 h * Z.max 0 w) by pow_lia. }
  assert (Hm : is_Some (mapM (mapM (np.item [c0; c1])) (cells g))).
  { apply mapM_is_Some, Forall_forall. intros row Hrow. simpl. apply mapM_is_Some.
    destruct (Hrows row Hrow) as [_ Hbits].
    eapply Forall_impl; [exact Hbits |].
    intros v Hv. simpl. rewrite item_bit by done. by destruct Hv as [-> | ->]; eexists. }
  destruct Hm as [fc ->]. by eexists.
Qed.

Lemma frame_is_Some_iff env w h t colors :
  is_Some (checkerboard_frame env (w, h) t colors) ↔ frame_buildable env (w, h) t colors.
Proof.
  split; [| apply frame_exists]. intros [f Hf]. by destruct (frame_spec _ _ _ _ _ _ Hf).
Qed.

Lemma at2_colors_of (f : frame) x y c : at2 f x y = Some c → colors_of f c.
Proof.
  unfold at2, colors_of. intros Hc.
  destruct (cells f !! Z.to_nat y) as [row |] eqn:Hrow; simpl in Hc; [| done].
  exists row. split; apply list_elem_of_lookup; eauto.
Qed.

(** One tile further, along a row or along a column, the parity flips. *)
Lemma parity_next_tile t x y :
  0 < t →
  parity t (x + t) y = 1 - parity t x y ∧ parity t x (y + t) = 1 - parity t x y.
Proof.
  intros Ht. unfold parity.
  replace (x + t) with (x + 1 * t) by pow_lia.
  replace (y + t) with (y + 1 * t) by pow_lia.
  rewrite !Z.div_add by pow_lia.
  split; Z.div_mod_to_equations; pow_lia.
Qed.

Lemma frame_has_shape env w h t colors f :
  checkerboard_frame env (w, h) t colors = Some f →
  has_shape (Z.max 0 h) (Z.max 0 w) f.
Proof.
  intros (_ & g & c0 & c1 & _ & _ & _ & _ & Hnr & Hnc & Hrows & _)%frame_spec.
  split; [pow_lia |]. split; [pow_lia |]. apply Forall_forall. intros row Hrow.
  destruct (Hrows row Hrow) as [-> _]. done.
Qed.

End Arrays.

(** ** Paths *)

Section Paths.

Lemma split_slash_no_slash s : Forall no_slash (split_slash s).
Proof.
  induction s as [| c s IH]; simpl; [by repeat constructor |].
  destruct (Ascii.eqb_spec c "/") as [-> | Hc]; [by constructor |].
  destruct (split_slash s) as [| h t]; [by repeat constructor |].
  apply Forall_cons in IH as [Hh Ht]. by repeat constructor.
Qed.

Lemma split_slash_single x : no_slash x → split_slash x = [x].
Proof.
  induction x as [| c x IH]; simpl; [done |]. intros [Hc Hx].
  destruct (Ascii.eqb_spec c "/") as [-> | _]; [done |]. by rewrite IH.
Qed.

Lemma split_slash_cons x rest :
  no_slash x → split_slash (x +:+ "/" +:+ rest) = x :: split_slash rest.
Proof.
  induction x as [| c x IH]; simpl; [done |]. intros [Hc Hx].
  destruct (Ascii.eqb_spec c "/") as [-> | _]; [done |]. by rewrite IH.
Qed.

Lemma split_join l : Forall no_slash l → l ≠ [] → split_slash (join_slash l) = l.
Proof.
  induction l as [| x l IH]; [done |]. intros [Hx Hl]%Forall_cons _.
  destruct l as [| y l]; [by apply split_slash_single |].
  change (join_slash (x :: y :: l)) with (x +:+ "/" +:+ join_slash (y :: l)).
  rewrite split_slash_cons by done. by rewrite IH.
Qed.

Lemma filter_kept l : Forall component l → filter kept l = l.
Proof.
  induction 1 as [| x l [Hx _] _ IH]; [done |].
  by rewrite filter_cons_True, IH.
Qed.

(** The parser only produces components. *)
Lemma parse_path_components s : Forall component (names (parse_path s)).
Proof.
  unfold parse_path. destruct (splitroot s) as [r rel]. simpl.
  apply Forall_forall. intros x [Hk Hx]%list_elem_of_filter. split; [done |].
  pose proof (split_slash_no_slash rel) as Hall.
  rewrite Forall_forall in Hall. auto.
Qed.

Lemma truediv_components p filename :
  Forall component (names p) → Forall component (names (truediv p filename)).
Proof.
  intros Hp. unfold truediv.
  pose proof (parse_path_components filename) as Hq.
  destruct (root (parse_path filename)); simpl; [| done | done].
  by apply Forall_app.
Qed.

Lemma removelast_snoc {A : Type} (l : list A) x : removelast (l ++ [x]) = l.
Proof. by rewrite removelast_app, app_nil_r. Qed.

Lemma last_removelast {A : Type} (l : list A) x :
  last l = Some x → l = removelast l ++ [x].
Proof.
  destruct l as [| y l _] using rev_ind; [done |].
  rewrite last_snoc, removelast_snoc. by intros [= ->].
Qed.

Lemma join_slash_head x l :
  x ≠ EmptyString → no_slash x →
  ∃ c rest, join_slash (x :: l) = String c rest ∧ c ≠ "/"%char.
Proof.
  destruct x as [| c x]; [done |]. intros _ [Hc _].
  destruct l; simpl; eauto.
Qed.

Lemma splitroot_cases s c rest :
  s = String c rest → c ≠ "/"%char →
  splitroot s = (Relative, s) ∧
  splitroot (String "/" s) = (Root, s) ∧
  splitroot (String "/" (String "/" s)) = (Root2, s).
Proof.
  intros -> Hc%Ascii.eqb_neq. simpl. by rewrite Hc.
Qed.

(** Printing a path of components and parsing it again gives it back, so
    the path the encoder opens is the path whose parent was created. *)
Lemma parse_as_posix p : Forall component (names p) → parse_path (as_posix p) = p.
Proof.
  destruct p as [r l]. simpl. intros Hl.
  assert (Hns : Forall no_slash l) by (eapply Forall_impl; [done | by intros ? []]).
  destruct l as [| x l].
  - by destruct r.
  - apply Forall_cons in Hl as Hx. destruct Hx as [[[Hne _] Hx] _].
    destruct (join_slash_head x l Hne Hx) as (c & rest & Hj & Hc).
    assert (Hsplit : filter kept (split_slash (join_slash (x :: l))) = x :: l).
    { rewrite split_join by done. by apply filter_kept. }
    destruct (splitroot_cases _ c rest Hj Hc) as (Hrel & Hroot & Hroot2).
    unfold parse_path, as_posix; destruct r; simpl root; simpl names; cbv iota.
    + by rewrite Hrel, Hsplit.
    + change ("/" +:+ ?s) with (String "/" s). by rewrite Hroot, Hsplit.
    + change ("//" +:+ ?s) with (String "/" (String "/" s)). by rewrite Hroot2, Hsplit.
Qed.

End Paths.

(** ** The file system *)

Section FileSystem.

Implicit Types (fs : gmap (list string) node) (cwd cur ns : list string).
Implicit Types (p : Path) (w : world).

Lemma lookup_node_mono fs fs' k v :
  fs ⊆ fs' → lookup_node fs k = Some v → lookup_node fs' k = Some v.
Proof.
  intros Hsub. destruct k; simpl; [done |]. intros Hk. by eapply lookup_weaken.
Qed.

Lemma lookup_node_file fs k : lookup_node fs k = Some File → ¬ no_regular_file fs.
Proof. destruct k; simpl; [done |]. intros Hk Hno. by apply (Hno _ Hk). Qed.

Lemma lookup_node_insert fs k v :
  k ≠ [] → lookup_node (<[k := v]> fs) k = Some v.
Proof. destruct k; [done |]. intros _. simpl. apply lookup_insert_eq. Qed.

Lemma insert_fresh_subseteq fs k v :
  lookup_node fs k = None → fs ⊆ <[k := v]> fs ∧ k ≠ [].
Proof.
  destruct k; simpl; [done |]. intros Hk. split; [| done].
  by apply insert_subseteq.
Qed.

Lemma no_regular_file_insert_dir fs k :
  no_regular_file fs → no_regular_file (<[k := Dir]> fs).
Proof.
  intros Hno k'. destruct (decide (k = k')) as [<- | Hne].
  - by rewrite lookup_insert_eq.
  - rewrite lookup_insert_ne by done. apply Hno.
Qed.

(** Directories that resolve keep resolving when entries are added. *)
Lemma walk_mono fs fs' cur ns d :
  fs ⊆ fs' → walk fs cur ns = inr d → walk fs' cur ns = inr d.
Proof.
  intros Hsub. revert cur. induction ns as [| n ns IH]; intros cur; simpl; [done |].
  case_decide; [apply IH |].
  destruct (lookup_node fs (cur ++ [n])) as [[] |] eqn:Hk; [| done | done].
  rewrite (lookup_node_mono _ _ _ _ Hsub Hk). apply IH.
Qed.

Lemma walk_app fs cur ns1 ns2 :
  walk fs cur (ns1 ++ ns2)
  = match walk fs cur ns1 with
    | inr d => walk fs d ns2
    | inl e => inl e
    end.
Proof.
  revert cur. induction ns1 as [| n ns1 IH]; intros cur; simpl; [done |].
  case_decide; [apply IH |].
  destruct (lookup_node fs (cur ++ [n])) as [[] |]; [apply IH | done | done].
Qed.

(** Resolution only fails on a missing entry or on a regular file. *)
Lemma walk_inl fs cur ns e :
  walk fs cur ns = inl e → e = ENOENT ∨ (e = ENOTDIR ∧ ¬ no_regular_file fs).
Proof.
  revert cur. induction ns as [| n ns IH]; intros cur; simpl; [done |].
  case_decide; [apply IH |].
  destruct (lookup_node fs (cur ++ [n])) as [[] |] eqn:Hk; [apply IH | |].
  - intros [= <-]. right. eauto using lookup_node_file.
  - intros [= <-]. by left.
Qed.

Lemma is_dir_walk fs cwd p :
  is_dir fs cwd p = true ↔ ∃ d, walk fs (start_dir cwd p) (names p) = inr d.
Proof.
  unfold is_dir. destruct (walk _ _ _); split; try done; eauto.
  by intros [? ?].
Qed.

(** [os.mkdir] that succeeds adds one directory, and the path then is a
    directory. *)
Lemma os_mkdir_inr fs cwd p fs' :
  os_mkdir fs cwd p = inr fs' →
  fs ⊆ fs' ∧ is_dir fs' cwd p = true ∧ (no_regular_file fs → no_regular_file fs').
Proof.
  unfold os_mkdir.
  destruct (last (names p)) as [n |] eqn:Hlast; [| done].
  destruct (walk fs (start_dir cwd p) (removelast (names p))) as [e | d] eqn:Hwalk; [done |].
  case_decide as Hn; [done |].
  destruct (lookup_node fs (d ++ [n])) as [v |] eqn:Hk; [done |].
  intros [= <-].
  destruct (insert_fresh_subseteq fs _ Dir Hk) as [Hsub Hne].
  split; [done |]. split; [| apply no_regular_file_insert_dir].
  apply is_dir_walk. exists (d ++ [n]).
  rewrite (last_removelast _ _ Hlast), walk_app.
  rewrite (walk_mono _ _ _ _ _ Hsub Hwalk). simpl.
  rewrite decide_False by done. by rewrite lookup_node_insert.
Qed.

(** [os.mkdir] that fails: the parent is missing, or a regular file is on
    the way, or the entry exists -- as a directory, or as a regular file. *)
Lemma os_mkdir_inl fs cwd p e :
  os_mkdir fs cwd p = inl e →
  (e = ENOENT ∧ walk fs (start_dir cwd p) (removelast (names p)) = inl ENOENT) ∨
  (e = ENOTDIR ∧ ¬ no_regular_file fs) ∨
  (e = EEXIST ∧ (is_dir fs cwd p = true ∨ ¬ no_regular_file fs)).
Proof.
  unfold os_mkdir.
  destruct (last (names p)) as [n |] eqn:Hlast.
  2:{ intros [= <-]. right. right. split; [done |]. left.
      apply is_dir_walk. destruct (names p) as [| x l] using rev_ind; [by eexists |].
      by rewrite last_snoc in Hlast. }
  destruct (walk fs (start_dir cwd p) (removelast (names p))) as [e' | d] eqn:Hwalk.
  { intros [= <-]. destruct (walk_inl _ _ _ _ Hwalk) as [-> | [-> Hfile]]; auto. }
  assert (Hdir : ∀ d', walk fs d [n] = inr d' → is_dir fs cwd p = true).
  { intros d' Hd'. apply is_dir_walk. exists d'.
    by rewrite (last_removelast _ _ Hlast), walk_app, Hwalk. }
  case_decide as Hn.
  { intros [= <-]. right. right. split; [done |]. left.
    apply (Hdir (removelast d)). simpl. by rewrite decide_True. }
  destruct (lookup_node fs (d ++ [n])) as [[] |] eqn:Hk; [| | done].
  - intros [= <-]. right. right. split; [done |]. left.
    apply (Hdir (d ++ [n])). simpl. by rewrite decide_False, Hk.
  - intros [= <-]. right. right. split; [done |]. right.
    eauto using lookup_node_file.
Qed.

Lemma mkdir_post_return p exist_ok w fs' :
  os_mkdir (w_fs w) (w_cwd w) p = inr fs' →
  mkdir_post p exist_ok w (Ret tt, mkWorld fs' (w_cwd w) (w_log w)).
Proof.
  intros (Hsub & Hdir & Hno)%os_mkdir_inr. by repeat split.
Qed.

(** The handler for an existing entry. *)
Lemma mkdir_post_exists p exist_ok w e :
  (e = ENOTDIR ∧ ¬ no_regular_file (w_fs w)) ∨
  (e = EEXIST ∧ (is_dir (w_fs w) (w_cwd w) p = true ∨ ¬ no_regular_file (w_fs w))) →
  mkdir_post p exist_ok w (mkdir_exists p exist_ok (OSError e) w).
Proof.
  intros He. unfold mkdir_exists, mkdir_post.
  destruct exist_ok; unfold bind, is_dir_call, ret, raise; simpl.
  - destruct (is_dir (w_fs w) (w_cwd w) p) eqn:Hdir; simpl.
    + by repeat split.
    + repeat split; try done; destruct He as [[-> Hf] | [-> [? | Hf]]]; auto; done.
  - repeat split; try done. destruct He as [[-> _] | [-> _]]; auto.
Qed.

(** [Path.mkdir(parents=False)] below a directory that exists. *)
Lemma mkdir_flat_spec p exist_ok w d :
  walk (w_fs w) (start_dir (w_cwd w) p) (removelast (names p)) = inr d →
  mkdir_post p exist_ok w (mkdir_flat p exist_ok w).
Proof.
  intros Hwalk. unfold mkdir_flat, catch, os_mkdir_call.
  destruct (os_mkdir (w_fs w) (w_cwd w) p) as [e | fs'] eqn:Hos.
  - destruct (os_mkdir_inl _ _ _ _ Hos) as [[-> Hno] | He]; [congruence |].
    assert (e ≠ ENOENT) by (destruct He as [[-> _] | [-> _]]; done).
    destruct e; try done; by apply mkdir_post_exists.
  - by apply mkdir_post_return.
Qed.

Lemma mkdir_post_seq p q exist_ok w res1 res2 :
  mkdir_post q true w res1 → mkdir_post p exist_ok res1.2 res2 →
  w_cwd res2.2 = w_cwd w ∧ w_log res2.2 = w_log w ∧ w_fs w ⊆ w_fs res2.2 ∧
  (no_regular_file (w_fs w) → no_regular_file (w_fs res2.2)) ∧
  match res2.1 with
  | Ret _ => is_dir (w_fs res2.2) (w_cwd w) p = true
  | Raise e => (e = OSError EEXIST ∨ e = OSError ENOTDIR) ∧
               (exist_ok = true → ¬ no_regular_file (w_fs w))
  end.
Proof.
  intros (Hc1 & Hl1 & Hs1 & Hn1 & _) (Hc2 & Hl2 & Hs2 & Hn2 & Hres).
  split; [congruence |]. split; [congruence |].
  split; [by etrans |]. split; [auto |].
  destruct res2.1 as [[] | e]; [by rewrite <- Hc1 |].
  destruct Hres as [He Hf]. split; [done |]. intros Hok Hno. by apply Hf; auto.
Qed.

(** [Path.mkdir(parents=True)]: the path ends up a directory unless a
    regular file is in the way; a missing directory is never an error. *)
Lemma mkdir_parents_spec r rev_names exist_ok w :
  mkdir_post (mkPath r (rev rev_names)) exist_ok w (mkdir_parents r rev_names exist_ok w).
Proof.
  revert exist_ok w. induction rev_names as [| n up IH]; intros exist_ok w.
  - simpl. unfold catch, os_mkdir_call.
    destruct (os_mkdir _ _ _) as [e | fs'] eqn:Hos; [| by apply mkdir_post_return].
    destruct (os_mkdir_inl _ _ _ _ Hos) as [[-> Hno] | He]; [done |].
    assert (e ≠ ENOENT) by (destruct He as [[-> _] | [-> _]]; done).
    destruct e; try done; by apply mkdir_post_exists.
  - cbn [mkdir_parents]. set (p := mkPath r (rev (n :: up))).
    unfold catch at 1, os_mkdir_call at 1.
    destruct (os_mkdir (w_fs w) (w_cwd w) p) as [e | fs'] eqn:Hos;
      [| by apply mkdir_post_return].
    destruct (os_mkdir_inl _ _ _ _ Hos) as [[-> Hno] | He].
    2:{ assert (e ≠ ENOENT) by (destruct He as [[-> _] | [-> _]]; done).
        destruct e; try done; by apply mkdir_post_exists. }
    unfold bind. specialize (IH true w).
    destruct (mkdir_parents r up true w) as [[[] | e] w1] eqn:Hup.
    + pose proof IH as (Hc1 & Hl1 & Hs1 & Hn1 & Hdir). simpl in *.
      apply is_dir_walk in Hdir as [d Hd]. simpl in Hd.
      apply (mkdir_post_seq p (mkPath r (rev up)) exist_ok w (Ret tt, w1)); [done |]. simpl.
      apply (mkdir_flat_spec p exist_ok w1 d).
      subst p. simpl. rewrite removelast_snoc. by rewrite Hc1.
    + destruct IH as (Hc1 & Hl1 & Hs1 & Hn1 & He & Hf). simpl in *.
      repeat split; try done. intros _. by apply Hf.
Qed.

Lemma Path_mkdir_spec p exist_ok w :
  mkdir_post p exist_ok w (Path_mkdir p true exist_ok w).
Proof.
  unfold Path_mkdir. destruct p as [r ns].
  pose proof (mkdir_parents_spec r (rev ns) exist_ok w) as H.
  by rewrite rev_involutive in H.
Qed.

End FileSystem.

(** ** The checkerboard generator *)

(** C1.  For a positive tile length [t] and a pixel (x, y) inside the
    requested size, the frame [checkerboard_clip] builds gives the pixel the
    colour index ((y // t) + (x // t)) mod 2: the grid holds that index
    and the frame the palette row it selects, which is the colour of that
    index in [colors] when the channels are 8-bit values.  The frame is
    built whenever NumPy has what it needs. *)
Theorem checkerboard_pixel_color env w h t colors x y :
  0 < t → 0 ≤ x < w → 0 ≤ y < h →
  (frame_buildable env (w, h) t colors →
   is_Some (checkerboard_frame env (w, h) t colors)) ∧
  ∀ f, checkerboard_frame env (w, h) t colors = Some f →
    ∃ g palette,
      checkerboard_grid env (w, h) t = Some g ∧
      np.array_uint8 env colors = Some palette ∧
      at2 g x y = Some (parity t x y) ∧
      at2 f x y = palette !! Z.to_nat (parity t x y) ∧
      (rgb_uint8 colors.1 → rgb_uint8 colors.2 →
       at2 f x y = color_at colors (parity t x y)).
Proof.
  intros Ht Hx Hy. split; [apply frame_exists |].
  intros f Hf.
  destruct (frame_spec _ _ _ _ _ _ Hf)
    as (_ & g & c0 & c1 & Hg & Hp & _ & _ & _ & _ & _ & Hat).
  destruct (Hat x y Hx Hy) as [Hgxy Hfxy]. rewrite clamp_tile_pos in Hgxy, Hfxy by done.
  exists g, [c0; c1]. split; [done |]. split; [done |]. split; [done |]. split; [done |].
  intros H1 H2. rewrite Hfxy. unfold color_at.
  by rewrite (array_uint8_id _ _ _ Hp H1 H2).
Qed.

Lemma checkerboard_pixel_color_witness :
  (frame_buildable numpy2 (320, 240) 40 default_colors →
   is_Some (checkerboard_frame numpy2 (320, 240) 40 default_colors)) ∧
  ∀ f, checkerboard_frame numpy2 (320, 240) 40 default_colors = Some f →
    ∃ g palette,
      checkerboard_grid numpy2 (320, 240) 40 = Some g ∧
      np.array_uint8 numpy2 default_colors = Some palette ∧
      at2 g 45 10 = Some (parity 40 45 10) ∧
      at2 f 45 10 = palette !! Z.to_nat (parity 40 45 10) ∧
      (rgb_uint8 default_colors.1 → rgb_uint8 default_colors.2 →
       at2 f 45 10 = color_at default_colors (parity 40 45 10)).
Proof. apply (checkerboard_pixel_color numpy2 320 240 40 default_colors 45 10); lia. Defined.

(** C2, as stated, fails: a frame no larger than one tile shows a single
    colour. *)
Lemma single_tile_one_color :
  checkerboard_frame numpy2 (3, 2) 40 default_colors
  = Some (mkArray2 3 [[(20, 20, 20); (20, 20, 20); (20, 20, 20)];
                      [(20, 20, 20); (20, 20, 20); (20, 20, 20)]]) ∧
  ¬ two_colors (mkArray2 3 [[(20, 20, 20); (20, 20, 20); (20, 20, 20)];
                            [(20, 20, 20); (20, 20, 20); (20, 20, 20)]]).
Proof.
  split; [reflexivity |].
  intros (a & b & Hab & Hc).
  assert (Hin : ∀ c, colors_of (mkArray2 3 [[(20, 20, 20); (20, 20, 20); (20, 20, 20)];
                                            [(20, 20, 20); (20, 20, 20); (20, 20, 20)]]) c
                     → c = (20, 20, 20)).
  { intros c (row & Hrow & Hcr). simpl in Hrow.
    repeat (apply elem_of_cons in Hrow as [-> | Hrow]);
      [| | by apply elem_of_nil in Hrow];
      repeat (apply elem_of_cons in Hcr as [-> | Hcr]); try done;
      by apply elem_of_nil in Hcr. }
  apply Hab. rewrite (Hin a), (Hin b); [done | |]; apply Hc; auto.
Qed.

(** C2, amended.  For a positive size and a positive tile length, every
    pixel of the frame [checkerboard_clip] builds is the palette colour
    selected by the parity of its tile, so the frame holds no colour
    besides the two of the palette; the parity flips from a tile to the
    next one in its row or column; the first colour always occurs, and the
    second one as soon as the tile is shorter than the width or the height.
    The frame is built whenever NumPy has what it needs. *)
Theorem checkerboard_two_colors_alternate env w h t colors :
  0 < w → 0 < h → 0 < t →
  (frame_buildable env (w, h) t colors →
   is_Some (checkerboard_frame env (w, h) t colors)) ∧
  ∀ f, checkerboard_frame env (w, h) t colors = Some f →
    ∃ c0 c1,
      np.array_uint8 env colors = Some [c0; c1] ∧
      (∀ x y, 0 ≤ x < w → 0 ≤ y < h →
         at2 f x y = [c0; c1] !! Z.to_nat (parity t x y)) ∧
      (∀ x y, parity t (x + t) y = 1 - parity t x y ∧
              parity t x (y + t) = 1 - parity t x y) ∧
      (∀ c, colors_of f c → c = c0 ∨ c = c1) ∧
      colors_of f c0 ∧
      (t < w ∨ t < h → colors_of f c1 ∧ (c0 ≠ c1 → two_colors f)).
Proof.
  intros Hw Hh Ht. split; [apply frame_exists |].
  intros f Hf.
  destruct (frame_spec _ _ _ _ _ _ Hf)
    as (_ & g & c0 & c1 & _ & Hp & _ & _ & _ & _ & Hrows & Hat).
  rewrite clamp_tile_pos in Hat by done.
  assert (Hpix : ∀ x y, 0 ≤ x < w → 0 ≤ y < h →
            at2 f x y = [c0; c1] !! Z.to_nat (parity t x y)).
  { intros x y Hx Hy. by destruct (Hat x y Hx Hy). }
  assert (Hsub : ∀ c, colors_of f c → c = c0 ∨ c = c1).
  { intros c (row & Hrow & Hc).
    destruct (Hrows row Hrow) as [_ Hall]. rewrite Forall_forall in Hall.
    by apply elem_of_two, Hall. }
  assert (H0 : colors_of f c0).
  { apply (at2_colors_of f 0 0). rewrite Hpix by lia. done. }
  assert (H1 : t < w ∨ t < h → colors_of f c1).
  { intros [Htw | Hth].
    - apply (at2_colors_of f t 0). rewrite Hpix by lia.
      unfold parity. by rewrite Z.div_same, Z.div_0_l by lia.
    - apply (at2_colors_of f 0 t). rewrite Hpix by lia.
      unfold parity. by rewrite Z.div_same, Z.div_0_l by lia. }
  exists c0, c1. split; [done |]. split; [done |].
  split; [intros x y; by apply parity_next_tile |].
  split; [done |]. split; [done |].
  intros Hlt. split; [by apply H1 |].
  intros Hne. exists c0, c1. split; [done |].
  intros c. split; [apply Hsub |]. intros [-> | ->]; auto.
Qed.

Lemma checkerboard_two_colors_alternate_witness :
  (frame_buildable numpy1 (320, 240) 40 default_colors →
   is_Some (checkerboard_frame numpy1 (320, 240) 40 default_colors)) ∧
  ∀ f, checkerboard_frame numpy1 (320, 240) 40 default_colors = Some f →
    ∃ c0 c1,
      np.array_uint8 numpy1 default_colors = Some [c0; c1] ∧
      (∀ x y, 0 ≤ x < 320 → 0 ≤ y < 240 →
         at2 f x y = [c0; c1] !! Z.to_nat (parity 40 x y)) ∧
      (∀ x y, parity 40 (x + 40) y = 1 - parity 40 x y ∧
              parity 40 x (y + 40) = 1 - parity 40 x y) ∧
      (∀ c, colors_of f c → c = c0 ∨ c = c1) ∧
      colors_of f c0 ∧
      (40 < 320 ∨ 40 < 240 → colors_of f c1 ∧ (c0 ≠ c1 → two_colors f)).
Proof.
  apply (checkerboard_two_colors_alternate numpy1 320 240 40 default_colors); lia.
Defined.

(** C3.  The frame [checkerboard_clip] builds has as many rows as the
    height and as many columns as the width asks for, every row as long
    as the column count, and every channel of every pixel an 8-bit
    unsigned value: its shape is (height, width, 3) for a width and a
    height that are not negative, for every tile length.  (A negative width
    or height counts as zero.)  The frame is built whenever NumPy has what
    it needs. *)
Theorem checkerboard_shape_uint8 env w h t colors :
  (frame_buildable env (w, h) t colors →
   is_Some (checkerboard_frame env (w, h) t colors)) ∧
  ∀ f, checkerboard_frame env (w, h) t colors = Some f →
    has_shape (Z.max 0 h) (Z.max 0 w) f ∧
    (0 ≤ w → 0 ≤ h → has_shape h w f) ∧
    (∀ row c, row ∈ cells f → c ∈ row → rgb_uint8 c).
Proof.
  split; [apply frame_exists |]. intros f Hf.
  pose proof (frame_has_shape _ _ _ _ _ _ Hf) as Hshape.
  split; [done |]. split.
  - intros Hw Hh. by rewrite !Z.max_r in Hshape.
  - destruct (frame_spec _ _ _ _ _ _ Hf)
      as (_ & g & c0 & c1 & _ & _ & Hc0 & Hc1 & _ & _ & Hrows & _).
    intros row c Hrow Hc.
    destruct (Hrows row Hrow) as [_ Hall]. rewrite Forall_forall in Hall.
    by destruct (elem_of_two _ _ _ (Hall c Hc)) as [-> | ->].
Qed.

(** C4.  A tile length that is zero or negative is not rejected: it is
    clamped to the positive length 1 and is never the reason for a failure
    (if the frame can be built for any tile at all, and whenever NumPy has
    what the size and the colours need, it is built for this one); the
    frame built is well formed, with the requested row and column counts
    and the checkerboard of the clamped length in it, and the clip is
    made of it. *)
Theorem nonpositive_tile_clamped env w h duration t colors :
  t ≤ 0 →
  clamp_tile t = 1 ∧
  (∀ t', is_Some (checkerboard_frame env (w, h) t' colors) →
         is_Some (checkerboard_frame env (w, h) t colors)) ∧
  (frame_buildable env (w, h) 1 colors →
   is_Some (checkerboard_frame env (w, h) t colors)) ∧
  ∀ f, checkerboard_frame env (w, h) t colors = Some f →
    checkerboard_clip env (w, h) duration t colors
    = Some (with_fps (with_duration (ImageClip f) duration) FPS) ∧
    has_shape (Z.max 0 h) (Z.max 0 w) f ∧
    ∃ palette,
      np.array_uint8 env colors = Some palette ∧
      ∀ x y, 0 ≤ x < w → 0 ≤ y < h →
        at2 f x y = palette !! Z.to_nat (parity (clamp_tile t) x y).
Proof.
  intros Ht.
  assert (Hany : ∀ t', frame_buildable env (w, h) t' colors →
            frame_buildable env (w, h) t colors).
  { intros t' ((Hw & Hh & _ & Ha) & Hp & Hf). split; [| done].
    split; [done |]. split; [done |]. split; [| done].
    rewrite clamp_tile_nonpos by done. pow_lia. }
  split; [by apply clamp_tile_nonpos |]. split; [| split].
  - intros t' Hsome%frame_is_Some_iff. by eapply frame_exists, Hany.
  - intros Hb. by eapply frame_exists, Hany.
  - intros f Hf. split; [unfold checkerboard_clip; by rewrite Hf |].
    split; [by eapply frame_has_shape |].
    destruct (frame_spec _ _ _ _ _ _ Hf)
      as (_ & g & c0 & c1 & _ & Hp & _ & _ & _ & _ & _ & Hat).
    exists [c0; c1]. split; [done |]. intros x y Hx Hy. by destruct (Hat x y Hx Hy).
Qed.

Lemma nonpositive_tile_clamped_witness :
  clamp_tile (-7) = 1 ∧
  (∀ t', is_Some (checkerboard_frame numpy2 (4, 3) t' default_colors) →
         is_Some (checkerboard_frame numpy2 (4, 3) (-7) default_colors)) ∧
  (frame_buildable numpy2 (4, 3) 1 default_colors →
   is_Some (checkerboard_frame numpy2 (4, 3) (-7) default_colors)) ∧
  ∀ f, checkerboard_frame numpy2 (4, 3) (-7) default_colors = Some f →
    checkerboard_clip numpy2 (4, 3) 2%Q (-7) default_colors
    = Some (with_fps (with_duration (ImageClip f) 2%Q) FPS) ∧
    has_shape (Z.max 0 3) (Z.max 0 4) f ∧
    ∃ palette,
      np.array_uint8 numpy2 default_colors = Some palette ∧
      ∀ x y, 0 ≤ x < 4 → 0 ≤ y < 3 →
        at2 f x y = palette !! Z.to_nat (parity (clamp_tile (-7)) x y).
Proof. apply (nonpositive_tile_clamped numpy2 4 3 2%Q (-7) default_colors). lia. Defined.

(** C9.  Every tile length that is zero or negative gives the pixel array
    (and the clip) of tile length 1. *)
Theorem nonpositive_tile_as_one m size duration t colors :
  t ≤ 0 →
  checkerboard_grid m size t = checkerboard_grid m size 1 ∧
  checkerboard_frame m size t colors = checkerboard_frame m size 1 colors ∧
  checkerboard_clip m size duration t colors = checkerboard_clip m size duration 1 colors.
Proof.
  intros Ht.
  assert (Hg : checkerboard_grid m size t = checkerboard_grid m size 1).
  { destruct size as [w h]. unfold checkerboard_grid.
    by rewrite (clamp_tile_nonpos t), (clamp_tile_pos 1). }
  unfold checkerboard_clip, checkerboard_frame. by rewrite Hg.
Qed.

Lemma nonpositive_tile_as_one_witness :
  checkerboard_grid numpy2 (5, 4) (-3) = checkerboard_grid numpy2 (5, 4) 1 ∧
  checkerboard_frame numpy2 (5, 4) (-3) default_colors
  = checkerboard_frame numpy2 (5, 4) 1 default_colors ∧
  checkerboard_clip numpy2 (5, 4) 2%Q (-3) default_colors
  = checkerboard_clip numpy2 (5, 4) 2%Q 1 default_colors.
Proof. apply (nonpositive_tile_as_one numpy2 (5, 4) 2%Q (-3) default_colors). lia. Defined.

(** ** [write_video] *)

Section WriteVideo.

Variable script_dir : string.
Variable encoder_ok : clip → string → bool.

Implicit Types (w : world) (c : clip).

Lemma target_components filename : Forall component (names (target_of script_dir filename)).
Proof. apply truediv_components, parse_path_components. Qed.

(** The two steps of [write_video]: the directory first, the encoder only
    when that returned. *)
Lemma write_video_steps c filename w :
  let target := target_of script_dir filename in
  let w0 := mkWorld (w_fs w) (w_cwd w) (w_log w ++ [ev_mkdir (parent target) true true]) in
  ∃ r1 w1,
    Path_mkdir (parent target) true true w0 = (r1, w1) ∧
    mkdir_post (parent target) true w0 (r1, w1) ∧
    write_video script_dir encoder_ok c filename w
    = match r1 with
      | Ret _ =>
          write_videofile encoder_ok c (as_posix target) video_args
            (mkWorld (w_fs w1) (w_cwd w1)
               (w_log w1 ++ [ev_write_videofile c (as_posix target) video_args]))
      | Raise e => (Raise e, w1)
      end.
Proof.
  intros target w0.
  pose proof (Path_mkdir_spec (parent target) true w0) as Hpost.
  destruct (Path_mkdir (parent target) true true w0) as [r1 w1] eqn:Hmk.
  exists r1, w1. split; [done |]. split; [done |].
  unfold write_video, bind, emit. fold target. simpl. fold w0.
  unfold Path_mkdir in Hmk. simpl in Hmk. rewrite Hmk. by destruct r1 as [[] | e].
Qed.

(** Below a directory that exists, a file can be opened for writing
    exactly when its path is not a directory. *)
Lemma os_create_inr_iff (fs : gmap (list string) node) cwd (p : Path) :
  is_dir fs cwd (parent p) = true →
  (∃ fs', os_create fs cwd p = inr fs') ↔ is_dir fs cwd p = false.
Proof.
  intros [d Hd]%is_dir_walk. simpl in Hd.
  change (start_dir cwd (parent p)) with (start_dir cwd p) in Hd.
  unfold os_create, is_dir.
  destruct (last (names p)) as [n |] eqn:Hlast.
  2:{ destruct (names p) as [| x l _] using rev_ind; [| by rewrite last_snoc in Hlast].
      simpl. split; [by intros [? ?] | done]. }
  rewrite Hd, (last_removelast _ _ Hlast), walk_app, Hd. simpl.
  case_decide; [split; [by intros [? ?] | done] |].
  destruct (lookup_node fs (d ++ [n])) as [[] |]; split; try done; try (by intros [? ?]); eauto.
Qed.

(** The encoder below a directory that exists: it returns exactly when
    the target is not a directory and the encoding succeeds, and the target
    then is a regular file; otherwise the video library raises its
    [OSError] and the disk is as it was. *)
Lemma write_videofile_spec c (target : Path) a w :
  Forall component (names target) →
  is_dir (w_fs w) (w_cwd w) (parent target) = true →
  let res := write_videofile encoder_ok c (as_posix target) a w in
  w_cwd res.2 = w_cwd w ∧ w_log res.2 = w_log w ∧
  (res.1 = Ret tt ↔
   is_dir (w_fs w) (w_cwd w) target = false ∧ encoder_ok c (as_posix target) = true) ∧
  match res.1 with
  | Ret _ => is_file (w_fs res.2) (w_cwd w) target = true
  | Raise e => res.2 = w ∧ e = EncoderError
  end.
Proof.
  intros Hcomp Hdir.
  pose proof (os_create_inr_iff _ _ _ Hdir) as Hiff.
  apply is_dir_walk in Hdir as [d Hd]. simpl in Hd.
  change (start_dir (w_cwd w) (parent target)) with (start_dir (w_cwd w) target) in Hd.
  unfold write_videofile. rewrite parse_as_posix by done.
  destruct (os_create (w_fs w) (w_cwd w) target) as [e | fs'] eqn:Hos; simpl.
  - split; [done |]. split; [done |]. split; [| done].
    split; [done |]. intros [Hnd _]. apply Hiff in Hnd as [? ?]. done.
  - assert (Hnd : is_dir (w_fs w) (w_cwd w) target = false) by (apply Hiff; eauto).
    destruct (encoder_ok c (as_posix target)); simpl.
    2:{ split; [done |]. split; [done |]. split; [| done]. split; [done | by intros [_ ?]]. }
    split; [done |]. split; [done |]. split; [done |].
    unfold os_create in Hos. unfold is_file.
    destruct (last (names target)) as [n |]; [| done].
    rewrite Hd in Hos. case_decide; [done |].
    destruct (lookup_node (w_fs w) (d ++ [n])) as [[] |] eqn:Hk; [done | |];
      injection Hos as <-.
    + by rewrite Hd, Hk.
    + destruct (insert_fresh_subseteq _ _ File Hk) as [Hsub Hne].
      by rewrite (walk_mono _ _ _ _ _ Hsub Hd), lookup_node_insert.
Qed.

(** Everything [write_video] can do, by cases on the directory creation. *)
Lemma write_video_spec c filename w :
  let target := target_of script_dir filename in
  let res := write_video script_dir encoder_ok c filename w in
  let mk := ev_mkdir (parent target) true true in
  let enc := ev_write_videofile c (as_posix target) video_args in
  w_cwd res.2 = w_cwd w ∧
  ((∃ e, res.1 = Raise (OSError e) ∧ (e = EEXIST ∨ e = ENOTDIR) ∧
         w_log res.2 = w_log w ++ [mk] ∧ ¬ no_regular_file (w_fs w)) ∨
   (res.1 = Raise EncoderError ∧ w_log res.2 = w_log w ++ [mk; enc]) ∨
   (res.1 = Ret tt ∧ w_log res.2 = w_log w ++ [mk; enc] ∧
    is_file (w_fs res.2) (w_cwd w) target = true)).
Proof.
  intros target res mk enc.
  destruct (write_video_steps c filename w) as (r1 & w1 & Hmk & Hpost & Hrun).
  fold target in Hmk, Hpost, Hrun. subst res. rewrite Hrun. clear Hrun.
  destruct Hpost as (Hcwd & Hlog & Hsub & Hno & Hres). simpl in *.
  destruct r1 as [[] | e].
  - set (w2 := mkWorld (w_fs w1) (w_cwd w1) (w_log w1 ++ [enc])).
    destruct (write_videofile_spec c target video_args w2 (target_components filename))
      as (Hc2 & Hl2 & _ & Hres2); [simpl; by rewrite Hcwd |].
    fold enc. fold w2. simpl in Hc2, Hl2, Hres2.
    split; [congruence |]. right.
    assert (Hlog2 : w_log (write_videofile encoder_ok c (as_posix target) video_args w2).2
                    = w_log w ++ [mk; enc]).
    { rewrite Hl2, Hlog. by rewrite <- app_assoc. }
    destruct (write_videofile encoder_ok c (as_posix target) video_args w2).1 as [[] | e].
    + right. split; [done |]. split; [done |]. by rewrite Hcwd in Hres2.
    + left. destruct Hres2 as [_ ->]. done.
  - split; [done |]. left. destruct Hres as [He Hfile].
    destruct He as [-> | ->]; eexists; split; [done | | done |]; auto.
Qed.


End WriteVideo.

(** ** The demos *)

Section Demos.

Variable numpy : numpy_env.
Variable script_dir : string.
Variable encoder_ok : clip → string → bool.

Implicit Types (w : world) (s : string).

(** Each demo is one call of [write_video], with its file name; the demo
    with the checkerboard raises before it if NumPy does. *)
Lemma demo_calls_write_video base demo s w :
  (base, demo) ∈ demo_table numpy script_dir encoder_ok →
  (∃ c, demo s w = write_video script_dir encoder_ok c (base +:+ s +:+ ".mp4") w) ∨
  (base = "./out/background_transparency_demo_hee"%string ∧
   checkerboard_clip numpy (320, 240) 2%Q default_tile default_colors = None ∧
   demo s w = (Raise NumpyError, w)).
Proof.
  unfold demo_table. rewrite !elem_of_cons, elem_of_nil.
  intros [H | [H | [H | [H | [H | []]]]]]; injection H as -> ->;
    try (left; eexists; reflexivity).
  unfold background_transparency_demo, bind.
  destruct (checkerboard_clip numpy (320, 240) 2%Q default_tile default_colors)
    as [checker |]; [left; eexists; reflexivity | by right].
Qed.

(** What one call of [write_video] adds to the log of encoder calls. *)
Lemma write_video_written c filename w :
  let path := as_posix (target_of script_dir filename) in
  let res := write_video script_dir encoder_ok c filename w in
  w_cwd res.2 = w_cwd w ∧
  ∃ k, w_log res.2 = w_log w ++ k ∧
       (written k = [] ∨ written k = [path]) ∧
       (res.1 = Ret tt →
        written k = [path] ∧
        is_file (w_fs res.2) (w_cwd w) (target_of script_dir filename) = true).
Proof.
  intros path res.
  destruct (write_video_spec script_dir encoder_ok c filename w)
    as (Hcwd & [(e & Hres & _ & Hlog & _) | [(Hres & Hlog) | (Hres & Hlog & Hfile)]]);
    (split; [done |]); eexists; (split; [exact Hlog |]); fold res in Hres;
    rewrite Hres; simpl; auto; split; auto; done.
Qed.

(** What one demo adds to the log of encoder calls. *)
Lemma demo_written base demo s w :
  (base, demo) ∈ demo_table numpy script_dir encoder_ok →
  let target := target_of script_dir (base +:+ s +:+ ".mp4") in
  let res := demo s w in
  w_cwd res.2 = w_cwd w ∧
  ∃ k, w_log res.2 = w_log w ++ k ∧
       (written k = [] ∨ written k = [as_posix target]) ∧
       (res.1 = Ret tt →
        written k = [as_posix target] ∧
        is_file (w_fs res.2) (w_cwd w) target = true).
Proof.
  intros Hin target res.
  destruct (demo_calls_write_video base demo s w Hin) as [[c Hc] | (_ & _ & Hc)];
    subst res; rewrite Hc.
  - apply write_video_written.
  - simpl. split; [done |]. exists []. rewrite app_nil_r. split; [done |]. by split; [left |].
Qed.

End Demos.

(** ** Running calls in order *)

Section Sequencing.

Lemma run_seq_in_order ds w : runs_in_order ds w (run_seq ds w).
Proof.
  revert w. induction ds as [| d ds IH]; intros w; simpl; [constructor |].
  unfold bind. destruct (d w) as [[[] | e] w'] eqn:Hd.
  - eapply runs_next; eauto.
  - by eapply runs_raise.
Qed.

(** The log of encoder calls of a sequential run: the calls of the single
    steps, in order, up to the step that raised. *)
Lemma runs_in_order_written ds paths w res :
  Forall2 (λ (d : M unit) path, ∀ w0,
             w_cwd (d w0).2 = w_cwd w0 ∧
             ∃ k, w_log (d w0).2 = w_log w0 ++ k ∧
                  (written k = [] ∨ written k = [path]) ∧
                  ((d w0).1 = Ret tt → written k = [path])) ds paths →
  runs_in_order ds w res →
  ∃ k, w_log res.2 = w_log w ++ k ∧
       written k `prefix_of` paths ∧
       (res.1 = Ret tt → written k = paths).
Proof.
  intros Hall Hrun. revert paths Hall.
  induction Hrun as [w | d ds w e w' Hd | d ds w w' res Hd Hrun IH]; intros paths Hall.
  - apply Forall2_nil_inv_l in Hall as ->. exists []. by rewrite app_nil_r.
  - apply Forall2_cons_inv_l in Hall as (path & paths' & Hstep & _ & ->).
    destruct (Hstep w) as (_ & k & Hlog & Hk & _). rewrite Hd in Hlog. simpl in Hlog.
    exists k. split; [done |]. split; [| done].
    destruct Hk as [-> | ->]; [apply prefix_nil | by apply prefix_cons, prefix_nil].
  - apply Forall2_cons_inv_l in Hall as (path & paths' & Hstep & Hrest & ->).
    destruct (Hstep w) as (_ & k & Hlog & _ & Hk). rewrite Hd in Hlog, Hk. simpl in *.
    destruct (IH paths' Hrest) as (k' & Hlog' & Hpre & Hret).
    exists (k ++ k'). unfold written in *. rewrite omap_app, Hk by done.
    split; [by rewrite Hlog', Hlog, app_assoc |].
    split; [by apply prefix_cons | intros Hr; simpl; f_equal; auto].
Qed.

End Sequencing.

(** ** The script: encoder calls, file names, order *)

Lemma write_videofile_log enc c filename a w :
  w_log (write_videofile enc c filename a w).2 = w_log w.
Proof.
  unfold write_videofile.
  destruct (os_create _ _ _); [done |]. by destruct (enc c filename).
Qed.

(** A file name the demos build, [./out/] followed by one component, lands
    in the directory [out] next to the script. *)
Lemma out_file_parent script_dir name :
  component name →
  parent (target_of script_dir ("./out/" +:+ name)) = out_dir script_dir.
Proof.
  intros [Hk Hns]. unfold target_of, out_dir, truediv, parse_path, parent.
  simpl. rewrite split_slash_single by done.
  rewrite !filter_cons_False, !filter_cons_True, filter_nil by (done || by intros [? ?]).
  simpl. rewrite filter_cons_False, filter_cons_True, filter_nil
    by (done || by intros [? ?]).
  simpl. f_equal.
  transitivity (removelast ((names (here script_dir) ++ ["out"%string]) ++ [name]));
    [by rewrite <- app_assoc | apply removelast_snoc].
Qed.

(** C6, as stated, fails: [write_video] joins the file name to the
    directory of the script, so a file name without [./out/] is written
    next to the script, not into the output directory, which is not even
    created. *)
Lemma write_video_outside_out :
  let w := mkWorld script_disk [] [] in
  let res := write_video "/srv/demo" (λ _ _, true) opaque_overlay_clip "clip.mp4" w in
  res.1 = Ret tt ∧
  w_log res.2
  = [ev_mkdir (mkPath Root ["srv"; "demo"]%string) true true;
     ev_write_videofile opaque_overlay_clip "/srv/demo/clip.mp4"
       (mkArgs 24 "libx264" "ultrafast" "500k" false None)] ∧
  is_file (w_fs res.2) [] (mkPath Root ["srv"; "demo"; "clip.mp4"]%string) = true ∧
  out_dir "/srv/demo" = mkPath Root ["srv"; "demo"; "out"]%string ∧
  parent (target_of "/srv/demo" "clip.mp4") ≠ out_dir "/srv/demo" ∧
  is_dir (w_fs res.2) [] (out_dir "/srv/demo") = false.
Proof. vm_compute. repeat split; done. Qed.

(** C6, amended.  [write_video] logs the directory creation, and calls the
    encoder exactly once when that returns and not at all when it raises;
    the call passes the path of the file name joined to the directory of
    the script, 24 frames per second, the codec libx264, the preset
    ultrafast, the bitrate 500k and no audio.  The file is in the directory
    [out] next to the script for the file names the demos pass. *)
Theorem write_video_encodes_once script_dir encoder_ok c filename w :
  let target := target_of script_dir filename in
  let mk := ev_mkdir (parent target) true true in
  let call :=
    ev_write_videofile c (as_posix target)
      (mkArgs 24 "libx264" "ultrafast" "500k" false None) in
  let res := write_video script_dir encoder_ok c filename w in
  (∃ r1 w1,
     Path_mkdir (parent target) true true
       (mkWorld (w_fs w) (w_cwd w) (w_log w ++ [mk])) = (r1, w1) ∧
     w_log res.2 = w_log w ++ mk :: match r1 with Ret _ => [call] | Raise _ => [] end ∧
     (res.1 = Ret tt → r1 = Ret tt ∧ is_file (w_fs res.2) (w_cwd w) target = true)) ∧
  (∀ name, component name →
     parent (target_of script_dir ("./out/" +:+ name)) = out_dir script_dir).
Proof.
  intros target mk call res. split; [| by apply out_file_parent].
  destruct (write_video_steps script_dir encoder_ok c filename w)
    as (r1 & w1 & Hmk & Hpost & Hrun).
  fold target mk in Hmk, Hpost, Hrun.
  exists r1, w1. split; [done |].
  destruct Hpost as (Hcwd & Hlog & _). simpl in Hcwd, Hlog.
  split.
  { subst res. rewrite Hrun. destruct r1 as [[] | e1]; simpl.
    - rewrite write_videofile_log. simpl. rewrite Hlog. by rewrite <- app_assoc.
    - by rewrite Hlog. }
  intros Hret. split.
  - subst res. rewrite Hrun in Hret. by destruct r1 as [[] | e1].
  - destruct (write_video_spec script_dir encoder_ok c filename w)
      as (_ & [(e & Hres & _) | [(Hres & _) | (_ & _ & Hfile)]]);
      [fold res in Hres; congruence | fold res in Hres; congruence | done].
Qed.

(** C10.  [write_video] creates the parent directory of the target before
    it calls the encoder: the encoder only runs in a world where that
    directory exists, the creation itself fails only on a regular file in
    the way, and [write_video] never raises for a missing directory; on a
    disk without regular files only the encoder can fail. *)
Theorem write_video_creates_parent_first script_dir encoder_ok c filename w :
  let target := target_of script_dir filename in
  let mk := ev_mkdir (parent target) true true in
  let call := ev_write_videofile c (as_posix target) video_args in
  let res := write_video script_dir encoder_ok c filename w in
  (∃ r1 w1,
     Path_mkdir (parent target) true true
       (mkWorld (w_fs w) (w_cwd w) (w_log w ++ [mk])) = (r1, w1) ∧
     match r1 with
     | Ret _ =>
         is_dir (w_fs w1) (w_cwd w) (parent target) = true ∧
         w_log w1 = w_log w ++ [mk] ∧
         res = write_videofile encoder_ok c (as_posix target) video_args
                 (mkWorld (w_fs w1) (w_cwd w1) (w_log w1 ++ [call]))
     | Raise e =>
         res = (Raise e, w1) ∧ w_log w1 = w_log w ++ [mk] ∧
         ¬ no_regular_file (w_fs w)
     end) ∧
  res.1 ≠ Raise (OSError ENOENT) ∧
  (no_regular_file (w_fs w) → res.1 = Ret tt ∨ res.1 = Raise EncoderError).
Proof.
  intros target mk call res.
  destruct (write_video_steps script_dir encoder_ok c filename w)
    as (r1 & w1 & Hmk & Hpost & Hrun).
  fold target mk in Hmk, Hpost, Hrun.
  destruct Hpost as (Hcwd & Hlog & _ & _ & Hres). simpl in Hcwd, Hlog, Hres.
  split; [| split].
  - exists r1, w1. split; [done |].
    destruct r1 as [[] | e]; [by repeat split |].
    destruct Hres as [_ Hfile]. repeat split; auto.
  - destruct (write_video_spec script_dir encoder_ok c filename w)
      as (_ & [(e & Hr & He & _) | [(Hr & _) | (Hr & _)]]);
      fold res in Hr; rewrite Hr; [| done | done].
    by destruct He as [-> | ->].
  - intros Hno.
    destruct (write_video_spec script_dir encoder_ok c filename w)
      as (_ & [(e & Hr & _ & _ & Hfile) | [(Hr & _) | (Hr & _)]]);
      fold res in Hr; rewrite Hr; [done | by right | by left].
Qed.




(** C8.  The entry point runs [opaque_overlay_demo], [mask_ignored_demo],
    [background_transparency_demo], [dual_mask_blend_demo] and
    [clipped_mask_demo] in this order, each from the world the one before
    left on returning; the paths handed to the encoder are a prefix of the
    five file names in this order, and all five when the run returns. *)
Theorem main_runs_demos_in_order numpy script_dir encoder_ok s w :
  let res := main numpy script_dir encoder_ok s w in
  let path base := as_posix (target_of script_dir (base +:+ s +:+ ".mp4")) in
  runs_in_order
    [opaque_overlay_demo script_dir encoder_ok s;
     mask_ignored_demo script_dir encoder_ok s;
     background_transparency_demo numpy script_dir encoder_ok s;
     dual_mask_blend_demo script_dir encoder_ok s;
     clipped_mask_demo script_dir encoder_ok s] w res ∧
  ∃ k, w_log res.2 = w_log w ++ k ∧
       written k `prefix_of`
         [path "./out/opaque_overlay_demo_hee";
          path "./out/mask_ignored_demo_hee";
          path "./out/background_transparency_demo_hee";
          path "./out/dual_mask_blend_demo_hee";
          path "./out/clipped_mask_demo_hee"]%string ∧
       (res.1 = Ret tt →
        written k =
          [path "./out/opaque_overlay_demo_hee";
           path "./out/mask_ignored_demo_hee";
           path "./out/background_transparency_demo_hee";
           path "./out/dual_mask_blend_demo_hee";
           path "./out/clipped_mask_demo_hee"]%string).
Proof.
  intros res path.
  set (ds := [opaque_overlay_demo script_dir encoder_ok s;
              mask_ignored_demo script_dir encoder_ok s;
              background_transparency_demo numpy script_dir encoder_ok s;
              dual_mask_blend_demo script_dir encoder_ok s;
              clipped_mask_demo script_dir encoder_ok s]).
  assert (Hmain : res = run_seq ds w).
  { subst res ds. unfold main. cbn [run_seq]. unfold bind at 1 2 3 4 5 6 7 8 9.
    destruct (opaque_overlay_demo _ _ _ _) as [[[] | ?] w1]; [| done].
    destruct (mask_ignored_demo _ _ _ _) as [[[] | ?] w2]; [| done].
    destruct (background_transparency_demo _ _ _ _ _) as [[[] | ?] w3]; [| done].
    destruct (dual_mask_blend_demo _ _ _ _) as [[[] | ?] w4]; [| done].
    by destruct (clipped_mask_demo _ _ _ _) as [[[] | ?] w5]. }
  assert (Hrun : runs_in_order ds w res) by (rewrite Hmain; apply run_seq_in_order).
  split; [done |].
  apply (runs_in_order_written ds); [| done].
  assert (Hstep : ∀ base demo, (base, demo) ∈ demo_table numpy script_dir encoder_ok →
            ∀ w0, w_cwd (demo s w0).2 = w_cwd w0 ∧
                  ∃ k, w_log (demo s w0).2 = w_log w0 ++ k ∧
                       (written k = [] ∨ written k = [path base]) ∧
                       ((demo s w0).1 = Ret tt → written k = [path base])).
  { intros base demo Hin w0.
    destruct (demo_written numpy script_dir encoder_ok base demo s w0 Hin)
      as (Hcwd & k & Hlog & Hk & Hret).
    split; [done |]. exists k. split; [done |]. split; [done |].
    intros Hr. by apply Hret. }
  subst ds. unfold demo_table in Hstep.
  repeat (apply Forall2_cons; split;
          [apply (Hstep _ (_ : string → M unit)); rewrite !elem_of_cons; auto 10 |]).
  apply Forall2_nil_2.
Qed.

(** ** The script on concrete inputs *)

Example checkerboard_5x3 :
  checkerboard_frame numpy2 (5, 3) 2 default_colors
  = Some (mkArray2 5
            [[(20, 20, 20); (20, 20, 20); (220, 220, 220); (220, 220, 220); (20, 20, 20)];
             [(20, 20, 20); (20, 20, 20); (220, 220, 220); (220, 220, 220); (20, 20, 20)];
             [(220, 220, 220); (220, 220, 220); (20, 20, 20); (20, 20, 20); (220, 220, 220)]]).
Proof. reflexivity. Qed.

(** Where NumPy raises: a channel it cannot convert, a tile or a size
    outside [int64], an array the machine does not grant. *)
Example checkerboard_raises :
  checkerboard_frame numpy2 (2, 2) 1 ((256, 0, 0), (0, 0, 0)) = None ∧
  checkerboard_frame numpy1 (2, 2) 1 ((256, 0, 0), (0, 0, 1))
  = Some (mkArray2 2 [[(0, 0, 0); (0, 0, 1)]; [(0, 0, 1); (0, 0, 0)]]) ∧
  checkerboard_frame numpy1 (2, 2) 1 ((2 ^ 63, 0, 0), (0, 0, 1)) = None ∧
  checkerboard_frame numpy2 (3, 2) (2 ^ 63) default_colors = None ∧
  checkerboard_frame numpy2 (2 ^ 64, 1) 1 default_colors = None ∧
  checkerboard_frame numpy2 (2 ^ 40, 1) 1 default_colors = None.
Proof. repeat split; reflexivity. Qed.

(** The checkerboard of the demo can be built on both machines. *)
Example demo_checkerboard_buildable :
  frame_buildable numpy1 (320, 240) default_tile default_colors ∧
  frame_buildable numpy2 (320, 240) default_tile default_colors ∧
  is_Some (checkerboard_clip numpy2 (320, 240) 2%Q default_tile default_colors).
Proof.
  split; [| split]; [| | vm_compute; by eexists];
    unfold frame_buildable, grid_buildable, palette_buildable, np.allocates, np.int64;
    simpl; repeat split; (reflexivity || (vm_compute; congruence)).
Qed.

(** A frame without rows still has its column count. *)
Example checkerboard_no_rows :
  checkerboard_frame numpy2 (5, 0) 40 default_colors = Some (mkArray2 5 []) ∧
  checkerboard_frame numpy2 (0, 0) 40 default_colors = Some (mkArray2 0 []) ∧
  checkerboard_frame numpy2 (-1, 2) 40 default_colors = Some (mkArray2 0 [[]; []]).
Proof. repeat split; reflexivity. Qed.

Example target_of_demo :
  target_of "/srv/demo" "./out/opaque_overlay_demo_hee_v2.mp4"
  = mkPath Root ["srv"; "demo"; "out"; "opaque_overlay_demo_hee_v2.mp4"]%string ∧
  as_posix (target_of "/srv/demo" "./out/opaque_overlay_demo_hee_v2.mp4")
  = "/srv/demo/out/opaque_overlay_demo_hee_v2.mp4"%string.
Proof. split; reflexivity. Qed.

(** From a disk that only holds the directory of the script, the entry
    point creates [out] and the five files, in order. *)
Example main_from_scratch :
  let res := main numpy2 "/srv/demo" (λ _ _, true) "_v2" (mkWorld script_disk [] []) in
  res.1 = Ret tt ∧
  written (w_log res.2)
  = ["/srv/demo/out/opaque_overlay_demo_hee_v2.mp4";
     "/srv/demo/out/mask_ignored_demo_hee_v2.mp4";
     "/srv/demo/out/background_transparency_demo_hee_v2.mp4";
     "/srv/demo/out/dual_mask_blend_demo_hee_v2.mp4";
     "/srv/demo/out/clipped_mask_demo_hee_v2.mp4"]%string ∧
  is_dir (w_fs res.2) [] (out_dir "/srv/demo") = true.
Proof. vm_compute. repeat split; done. Qed.

(** A regular file in place of [out] stops the first demo before the
    encoder is reached, and with it the run. *)
Example main_blocked :
  let res := main numpy2 "/srv/demo" (λ _ _, true) ""
               (mkWorld (<[ ["srv"; "demo"; "out"]%string := File ]> script_disk) [] []) in
  res.1 = Raise (OSError EEXIST) ∧ written (w_log res.2) = [].
Proof. vm_compute. split; done. Qed.

(** A machine without memory for the checkerboard stops the run at the
    third demo. *)
Example main_out_of_memory :
  let res := main (mkNumpy Checked (λ bytes, bytes <? 1000)) "/srv/demo" (λ _ _, true) ""
               (mkWorld script_disk [] []) in
  res.1 = Raise NumpyError ∧
  written (w_log res.2)
  = ["/srv/demo/out/opaque_overlay_demo_hee.mp4";
     "/srv/demo/out/mask_ignored_demo_hee.mp4"]%string.
Proof. vm_compute. split; done. Qed.

(** * Further properties *)

(** ** The checkerboard as a picture *)

Section CheckerboardPicture.

Implicit Types (f : frame) (m : numpy_env).

(** The board of tile length [t] is the board of tile length 1 magnified:
    its pixel (x, y) is the pixel (x // tile, y // tile) of the unit board
    of the same size, [tile] being the clamped length.  In particular all
    pixels of one tile have one colour. *)
Theorem checkerboard_magnifies_unit_board m w h t colors f f1 x y :
  checkerboard_frame m (w, h) t colors = Some f →
  checkerboard_frame m (w, h) 1 colors = Some f1 →
  0 ≤ x < w → 0 ≤ y < h →
  at2 f x y = at2 f1 (x `div` clamp_tile t) (y `div` clamp_tile t) ∧
  (∀ x' y', 0 ≤ x' < w → 0 ≤ y' < h →
     x' `div` clamp_tile t = x `div` clamp_tile t →
     y' `div` clamp_tile t = y `div` clamp_tile t →
     at2 f x' y' = at2 f x y).
Proof.
  intros Hf Hf1 Hx Hy.
  destruct (frame_spec _ _ _ _ _ _ Hf) as (_ & g & c0 & c1 & _ & Hp & _ & _ & _ & _ & _ & Hat).
  destruct (frame_spec _ _ _ _ _ _ Hf1)
    as (_ & g1 & d0 & d1 & _ & Hp1 & _ & _ & _ & _ & _ & Hat1).
  rewrite Hp in Hp1. injection Hp1 as <- <-.
  pose proof (clamp_tile_ge_1 t) as HT.
  split.
  - rewrite (proj2 (Hat x y Hx Hy)).
    rewrite (proj2 (Hat1 _ _ (div_tile_range _ _ _ HT Hx) (div_tile_range _ _ _ HT Hy))).
    unfold parity. rewrite (clamp_tile_pos 1), !Z.div_1_r by lia. done.
  - intros x' y' Hx' Hy' Hxx Hyy.
    rewrite (proj2 (Hat x y Hx Hy)), (proj2 (Hat x' y' Hx' Hy')).
    unfold parity. by rewrite Hxx, Hyy.
Qed.

Lemma checkerboard_magnifies_unit_board_witness :
  at2 (mkArray2 4
         [[(20, 20, 20); (20, 20, 20); (220, 220, 220); (220, 220, 220)];
          [(20, 20, 20); (20, 20, 20); (220, 220, 220); (220, 220, 220)];
          [(220, 220, 220); (220, 220, 220); (20, 20, 20); (20, 20, 20)]]) 3 1
  = at2 (mkArray2 4
           [[(20, 20, 20); (220, 220, 220); (20, 20, 20); (220, 220, 220)];
            [(220, 220, 220); (20, 20, 20); (220, 220, 220); (20, 20, 20)];
            [(20, 20, 20); (220, 220, 220); (20, 20, 20); (220, 220, 220)]])
      (3 `div` clamp_tile 2) (1 `div` clamp_tile 2) ∧
  (∀ x' y', 0 ≤ x' < 4 → 0 ≤ y' < 3 →
     x' `div` clamp_tile 2 = 3 `div` clamp_tile 2 →
     y' `div` clamp_tile 2 = 1 `div` clamp_tile 2 →
     at2 (mkArray2 4
            [[(20, 20, 20); (20, 20, 20); (220, 220, 220); (220, 220, 220)];
             [(20, 20, 20); (20, 20, 20); (220, 220, 220); (220, 220, 220)];
             [(220, 220, 220); (220, 220, 220); (20, 20, 20); (20, 20, 20)]]) x' y'
     = at2 (mkArray2 4
              [[(20, 20, 20); (20, 20, 20); (220, 220, 220); (220, 220, 220)];
               [(20, 20, 20); (20, 20, 20); (220, 220, 220); (220, 220, 220)];
               [(220, 220, 220); (220, 220, 220); (20, 20, 20); (20, 20, 20)]]) 3 1).
Proof.
  apply (checkerboard_magnifies_unit_board numpy2 4 3 2 default_colors);
    [reflexivity | reflexivity | lia | lia].
Defined.

(** The board repeats every two tiles, along the rows and along the
    columns, whatever the tile length asked for. *)
Theorem checkerboard_period_two_tiles m w h t colors f x y :
  checkerboard_frame m (w, h) t colors = Some f →
  0 ≤ x → 0 ≤ y →
  (x + 2 * clamp_tile t < w → y < h → at2 f (x + 2 * clamp_tile t) y = at2 f x y) ∧
  (x < w → y + 2 * clamp_tile t < h → at2 f x (y + 2 * clamp_tile t) = at2 f x y).
Proof.
  intros Hf Hx Hy.
  destruct (frame_spec _ _ _ _ _ _ Hf) as (_ & g & c0 & c1 & _ & _ & _ & _ & _ & _ & _ & Hat).
  pose proof (clamp_tile_ge_1 t) as HT.
  assert (Hpar : ∀ a b, parity (clamp_tile t) (a + 2 * clamp_tile t) b
                        = parity (clamp_tile t) a b ∧
                        parity (clamp_tile t) a (b + 2 * clamp_tile t)
                        = parity (clamp_tile t) a b).
  { intros a b. unfold parity. rewrite !Z.div_add by lia.
    split; Z.div_mod_to_equations; lia. }
  split; intros H1 H2.
  - rewrite (proj2 (Hat (x + 2 * clamp_tile t) y ltac:(lia) ltac:(lia))),
      (proj2 (Hat x y ltac:(lia) ltac:(lia))).
    f_equal; f_equal; apply Hpar.
  - rewrite (proj2 (Hat x (y + 2 * clamp_tile t) ltac:(lia) ltac:(lia))),
      (proj2 (Hat x y ltac:(lia) ltac:(lia))).
    f_equal; f_equal; apply Hpar.
Qed.

Lemma checkerboard_period_two_tiles_witness :
  (1 + 2 * clamp_tile 1 < 5 → 0 < 3 →
   at2 (mkArray2 5
          [[(20, 20, 20); (220, 220, 220); (20, 20, 20); (220, 220, 220); (20, 20, 20)];
           [(220, 220, 220); (20, 20, 20); (220, 220, 220); (20, 20, 20); (220, 220, 220)];
           [(20, 20, 20); (220, 220, 220); (20, 20, 20); (220, 220, 220); (20, 20, 20)]])
     (1 + 2 * clamp_tile 1) 0
   = at2 (mkArray2 5
            [[(20, 20, 20); (220, 220, 220); (20, 20, 20); (220, 220, 220); (20, 20, 20)];
             [(220, 220, 220); (20, 20, 20); (220, 220, 220); (20, 20, 20); (220, 220, 220)];
             [(20, 20, 20); (220, 220, 220); (20, 20, 20); (220, 220, 220); (20, 20, 20)]])
       1 0) ∧
  (1 < 5 → 0 + 2 * clamp_tile 1 < 3 →
   at2 (mkArray2 5
          [[(20, 20, 20); (220, 220, 220); (20, 20, 20); (220, 220, 220); (20, 20, 20)];
           [(220, 220, 220); (20, 20, 20); (220, 220, 220); (20, 20, 20); (220, 220, 220)];
           [(20, 20, 20); (220, 220, 220); (20, 20, 20); (220, 220, 220); (20, 20, 20)]])
     1 (0 + 2 * clamp_tile 1)
   = at2 (mkArray2 5
            [[(20, 20, 20); (220, 220, 220); (20, 20, 20); (220, 220, 220); (20, 20, 20)];
             [(220, 220, 220); (20, 20, 20); (220, 220, 220); (20, 20, 20); (220, 220, 220)];
             [(20, 20, 20); (220, 220, 220); (20, 20, 20); (220, 220, 220); (20, 20, 20)]])
       1 0).
Proof.
  apply (checkerboard_period_two_tiles numpy2 5 3 1 default_colors);
    [reflexivity | lia | lia].
Defined.

(** The board is symmetric about its diagonal: inside the largest square
    that fits, pixel (x, y) and pixel (y, x) have one colour. *)
Theorem checkerboard_diagonal_symmetry m w h t colors f x y :
  checkerboard_frame m (w, h) t colors = Some f →
  0 ≤ x < Z.min w h → 0 ≤ y < Z.min w h →
  at2 f x y = at2 f y x.
Proof.
  intros Hf Hx Hy.
  destruct (frame_spec _ _ _ _ _ _ Hf) as (_ & g & c0 & c1 & _ & _ & _ & _ & _ & _ & _ & Hat).
  rewrite (proj2 (Hat x y ltac:(lia) ltac:(lia))), (proj2 (Hat y x ltac:(lia) ltac:(lia))).
  unfold parity. by rewrite Z.add_comm.
Qed.

Lemma checkerboard_diagonal_symmetry_witness :
  at2 (mkArray2 3
         [[(20, 20, 20); (220, 220, 220); (20, 20, 20)];
          [(220, 220, 220); (20, 20, 20); (220, 220, 220)]]) 1 0
  = at2 (mkArray2 3
           [[(20, 20, 20); (220, 220, 220); (20, 20, 20)];
            [(220, 220, 220); (20, 20, 20); (220, 220, 220)]]) 0 1.
Proof.
  apply (checkerboard_diagonal_symmetry numpy2 3 2 1 default_colors);
    [reflexivity | lia | lia].
Defined.

(** A size with a width or a height that is zero or negative is not an
    error where NumPy can build the arrays: the frame then has
    [max 0 height] rows and [max 0 width] columns, also when it has no
    rows, and holds no pixel. *)
Theorem checkerboard_empty_size m w h t colors :
  w ≤ 0 ∨ h ≤ 0 →
  (frame_buildable m (w, h) t colors →
   is_Some (checkerboard_frame m (w, h) t colors)) ∧
  (∀ f, checkerboard_frame m (w, h) t colors = Some f →
        has_shape (Z.max 0 h) (Z.max 0 w) f ∧
        (Z.max 0 h = 0 ∨ Z.max 0 w = 0) ∧
        ∀ c, ¬ colors_of f c).
Proof.
  intros Hwh. split; [apply frame_exists |]. intros f Hf.
  split; [by eapply frame_has_shape |]. split; [lia |].
  destruct (frame_spec _ _ _ _ _ _ Hf)
    as (_ & g & c0 & c1 & _ & _ & _ & _ & Hnr & _ & Hrows & _).
  intros c (row & Hrow & Hc). destruct Hwh as [Hw | Hh].
  - destruct (Hrows row Hrow) as [Hl _].
    assert (row = []) as -> by (apply nil_length_inv; lia).
    by apply elem_of_nil in Hc.
  - unfold nrows in Hnr.
    assert (cells f = []) as Hnil by (apply nil_length_inv; lia).
    rewrite Hnil in Hrow. by apply elem_of_nil in Hrow.
Qed.

Lemma checkerboard_empty_size_witness :
  (frame_buildable numpy2 (5, 0) 40 default_colors →
   is_Some (checkerboard_frame numpy2 (5, 0) 40 default_colors)) ∧
  (∀ f, checkerboard_frame numpy2 (5, 0) 40 default_colors = Some f →
        has_shape (Z.max 0 0) (Z.max 0 5) f ∧
        (Z.max 0 0 = 0 ∨ Z.max 0 5 = 0) ∧
        ∀ c, ¬ colors_of f c).
Proof.
  apply (checkerboard_empty_size numpy2 5 0 40 default_colors). lia.
Defined.

(** [checkerboard_clip] raises exactly when NumPy cannot build the frame:
    a width, a height or the clamped tile outside the 64-bit integers, an
    array the machine does not grant, or a colour channel NumPy does not
    convert to [uint8].  Under the checked conversion of NumPy 2 a clip is
    only built from channels in 0..255. *)
Theorem checkerboard_clip_raises_iff m w h duration t colors :
  (is_Some (checkerboard_clip m (w, h) duration t colors)
   ↔ frame_buildable m (w, h) t colors) ∧
  (checkerboard_clip m (w, h) duration t colors = None
   ↔ ¬ frame_buildable m (w, h) t colors) ∧
  (is_Some (checkerboard_clip m (w, h) duration t colors) →
   np.int64 w ∧ np.int64 h ∧ t < 2 ^ 63 ∧
   (cast m = Checked → rgb_uint8 colors.1 ∧ rgb_uint8 colors.2)).
Proof.
  assert (Hclip : is_Some (checkerboard_clip m (w, h) duration t colors)
                  ↔ frame_buildable m (w, h) t colors).
  { rewrite <- frame_is_Some_iff. unfold checkerboard_clip.
    destruct (checkerboard_frame m (w, h) t colors); simpl; split; intros [? ?]; eauto;
      done. }
  split; [done |]. split.
  - split.
    + intros Hnone Hb. apply Hclip in Hb as [? Hb]. congruence.
    + intros Hnb. destruct (checkerboard_clip m (w, h) duration t colors) eqn:Hc; [| done].
      destruct Hnb. apply Hclip. by eexists.
  - intros ((Hw & Hh & Ht & _) & (_ & Hc0 & Hc1) & _)%Hclip. simpl in *.
    split; [done |]. split; [done |].
    split; [unfold clamp_tile in Ht; pow_lia |].
    intros Hm. rewrite Hm in Hc0, Hc1. simpl in Hc0, Hc1. done.
Qed.

(** What NumPy builds does not depend on the machine or on the NumPy
    version: they decide whether an array is built, not what is in it. *)
Lemma grid_agree m1 m2 size t g1 g2 :
  checkerboard_grid m1 size t = Some g1 →
  checkerboard_grid m2 size t = Some g2 →
  g1 = g2.
Proof.
  destruct size as [w h].
  unfold checkerboard_grid, np.arange, np.floor_divide, np.outer_add, np.remainder.
  repeat (case_decide; simpl; try done). congruence.
Qed.

Lemma to_uint8_agree c1 c2 z a b :
  np.to_uint8 c1 z = Some a → np.to_uint8 c2 z = Some b → a = b.
Proof.
  destruct c1, c2; unfold np.to_uint8; repeat case_decide; try done;
    intros [= <-] [= <-]; try done; by rewrite Z.mod_small.
Qed.

Lemma rgb_to_uint8_agree c1 c2 (c a b : rgb) :
  np.rgb_to_uint8 c1 c = Some a → np.rgb_to_uint8 c2 c = Some b → a = b.
Proof.
  destruct c as [[r g] bl]. unfold np.rgb_to_uint8. simpl.
  destruct (np.to_uint8 c1 r) as [r1 |] eqn:Hr1; [| done].
  destruct (np.to_uint8 c1 g) as [g1 |] eqn:Hg1; [| done].
  destruct (np.to_uint8 c1 bl) as [b1 |] eqn:Hb1; [| done].
  destruct (np.to_uint8 c2 r) as [r2 |] eqn:Hr2; [| done].
  destruct (np.to_uint8 c2 g) as [g2 |] eqn:Hg2; [| done].
  destruct (np.to_uint8 c2 bl) as [b2 |] eqn:Hb2; [| done].
  simpl. intros [= <-] [= <-].
  by rewrite (to_uint8_agree _ _ _ _ _ Hr1 Hr2), (to_uint8_agree _ _ _ _ _ Hg1 Hg2),
    (to_uint8_agree _ _ _ _ _ Hb1 Hb2).
Qed.

Lemma array_uint8_agree m1 m2 colors p1 p2 :
  np.array_uint8 m1 colors = Some p1 → np.array_uint8 m2 colors = Some p2 → p1 = p2.
Proof.
  unfold np.array_uint8. repeat case_decide; try done.
  destruct (np.rgb_to_uint8 (cast m1) colors.1) as [a0 |] eqn:Ha0; [| done].
  destruct (np.rgb_to_uint8 (cast m1) colors.2) as [a1 |] eqn:Ha1; [| done].
  destruct (np.rgb_to_uint8 (cast m2) colors.1) as [b0 |] eqn:Hb0; [| done].
  destruct (np.rgb_to_uint8 (cast m2) colors.2) as [b1 |] eqn:Hb1; [| done].
  simpl. intros [= <-] [= <-].
  by rewrite (rgb_to_uint8_agree _ _ _ _ _ Ha0 Hb0), (rgb_to_uint8_agree _ _ _ _ _ Ha1 Hb1).
Qed.

(** The frame does not depend on where it is built: two runs with the same
    size, tile and colours that both build a frame build the same one,
    whichever NumPy converts the colours and however much memory each
    machine has.  (Whether a frame is built does depend on both.) *)
Theorem checkerboard_same_frame_everywhere m1 m2 size t colors f1 f2 :
  checkerboard_frame m1 size t colors = Some f1 →
  checkerboard_frame m2 size t colors = Some f2 →
  f1 = f2.
Proof.
  unfold checkerboard_frame. intros H1 H2.
  destruct (checkerboard_grid m1 size t) as [g1 |] eqn:Hg1; [| done].
  destruct (checkerboard_grid m2 size t) as [g2 |] eqn:Hg2; [| done].
  simpl in H1, H2.
  destruct (np.array_uint8 m1 colors) as [p1 |] eqn:Hp1; [| done].
  destruct (np.array_uint8 m2 colors) as [p2 |] eqn:Hp2; [| done].
  simpl in H1, H2.
  rewrite (grid_agree _ _ _ _ _ _ Hg1 Hg2) in H1.
  rewrite (array_uint8_agree _ _ _ _ _ Hp1 Hp2) in H1.
  unfold np.take in H1, H2. repeat case_decide; try done. congruence.
Qed.

End CheckerboardPicture.

Lemma checkerboard_same_frame_everywhere_witness :
  mkArray2 3 [[(20, 20, 20); (20, 20, 20); (220, 220, 220)];
              [(20, 20, 20); (20, 20, 20); (220, 220, 220)]]
  = mkArray2 3 [[(20, 20, 20); (20, 20, 20); (220, 220, 220)];
                [(20, 20, 20); (20, 20, 20); (220, 220, 220)]].
Proof.
  apply (checkerboard_same_frame_everywhere numpy1
           (mkNumpy Checked (λ bytes, bytes <? 1000)) (3, 2) 2 default_colors);
    reflexivity.
Defined.

(** Where the two NumPy versions differ: a channel outside 0..255. *)
Example checkerboard_numpy_versions :
  checkerboard_frame numpy1 (1, 1) 1 ((256, 0, 0), (0, 0, 0))
  = Some (mkArray2 1 [[(0, 0, 0)]]) ∧
  checkerboard_frame numpy2 (1, 1) 1 ((256, 0, 0), (0, 0, 0)) = None.
Proof. split; reflexivity. Qed.

(** ** What [write_video] does to the disk *)

Section DiskEffects.

Variable script_dir : string.
Variable encoder_ok : clip → string → bool.

Implicit Types (fs : gmap (list string) node) (cwd : list string).
Implicit Types (p : Path) (w : world) (c : clip).

Lemma is_dir_mono fs fs' cwd p :
  fs ⊆ fs' → is_dir fs cwd p = true → is_dir fs' cwd p = true.
Proof.
  intros Hsub [d Hd]%is_dir_walk. apply is_dir_walk. exists d.
  by apply (walk_mono fs).
Qed.

Lemma is_file_inv fs cwd p :
  is_file fs cwd p = true ↔
  ∃ n d, last (names p) = Some n ∧
         walk fs (start_dir cwd p) (removelast (names p)) = inr d ∧
         n ≠ ".."%string ∧ lookup_node fs (d ++ [n]) = Some File.
Proof.
  unfold is_file. split.
  - destruct (last (names p)) as [n |]; [| done].
    destruct (walk _ _ _) as [e | d]; [done |].
    case_decide; [done |].
    destruct (lookup_node fs (d ++ [n])) as [[] |] eqn:Hk; try done.
    intros _. by exists n, d.
  - intros (n & d & -> & -> & Hn & ->). by rewrite decide_False.
Qed.

Lemma is_file_mono fs fs' cwd p :
  fs ⊆ fs' → is_file fs cwd p = true → is_file fs' cwd p = true.
Proof.
  intros Hsub (n & d & Hlast & Hwalk & Hn & Hk)%is_file_inv.
  apply is_file_inv. exists n, d.
  split; [done |]. split; [by eapply walk_mono |].
  split; [done |]. by eapply lookup_node_mono.
Qed.

(** A regular file sits in a directory. *)
Lemma is_file_parent_dir fs cwd p :
  is_file fs cwd p = true → is_dir fs cwd (parent p) = true.
Proof.
  intros (n & d & _ & Hwalk & _)%is_file_inv. apply is_dir_walk. by exists d.
Qed.

(** With a directory, all the directories above it exist. *)
Lemma is_dir_ancestors fs cwd r ns k :
  is_dir fs cwd (mkPath r ns) = true → is_dir fs cwd (mkPath r (take k ns)) = true.
Proof.
  intros [d Hd]%is_dir_walk. apply is_dir_walk. unfold start_dir in *. simpl in *.
  rewrite <- (take_drop k ns), walk_app in Hd.
  destruct (walk fs _ (take k ns)) as [e | d']; [done |].
  by exists d'.
Qed.

Lemma os_create_subseteq fs cwd p fs' : os_create fs cwd p = inr fs' → fs ⊆ fs'.
Proof.
  unfold os_create.
  destruct (last (names p)) as [n |]; [| done].
  destruct (walk _ _ _) as [e | d]; [done |].
  case_decide; [done |].
  destruct (lookup_node fs (d ++ [n])) as [[] |] eqn:Hk; [done | by intros [= <-] |].
  intros [= <-]. by destruct (insert_fresh_subseteq fs _ File Hk).
Qed.

Lemma write_videofile_subseteq c filename a w :
  w_fs w ⊆ w_fs (write_videofile encoder_ok c filename a w).2.
Proof.
  unfold write_videofile.
  destruct (os_create _ _ _) as [e | fs'] eqn:Hos; [done |].
  destruct (encoder_ok c filename); [| done]. simpl.
  by eapply os_create_subseteq.
Qed.

(** The encoder returns only if it could encode. *)
Lemma write_videofile_Ret c filename a w :
  (write_videofile encoder_ok c filename a w).1 = Ret tt →
  encoder_ok c filename = true.
Proof.
  unfold write_videofile.
  destruct (os_create _ _ _) as [e | fs']; [done |].
  by destruct (encoder_ok c filename).
Qed.

(** [os.mkdir] on a directory that exists reports that it exists. *)
Lemma os_mkdir_existing fs cwd p :
  is_dir fs cwd p = true → os_mkdir fs cwd p = inl EEXIST.
Proof.
  intros [d' Hd']%is_dir_walk. unfold os_mkdir.
  destruct (last (names p)) as [n |] eqn:Hlast; [| done].
  rewrite (last_removelast _ _ Hlast), walk_app in Hd'.
  destruct (walk fs (start_dir cwd p) (removelast (names p))) as [e | d]; [done |].
  case_decide; [done |]. simpl in Hd'. rewrite decide_False in Hd' by done.
  by destruct (lookup_node fs (d ++ [n])) as [[] |].
Qed.

(** [exist_ok=True]: creating a directory that exists changes nothing and
    does not raise. *)
Lemma Path_mkdir_existing p w :
  is_dir (w_fs w) (w_cwd w) p = true → Path_mkdir p true true w = (Ret tt, w).
Proof.
  intros Hdir. unfold Path_mkdir.
  assert (Hos : os_mkdir (w_fs w) (w_cwd w) (mkPath (root p) (rev (rev (names p))))
                = inl EEXIST).
  { rewrite rev_involutive. destruct p. by apply os_mkdir_existing. }
  assert (Hd : is_dir (w_fs w) (w_cwd w) (mkPath (root p) (rev (rev (names p)))) = true).
  { rewrite rev_involutive. by destruct p. }
  destruct (rev (names p)) as [| n up]; cbn [mkdir_parents];
    unfold catch, os_mkdir_call; rewrite Hos;
    unfold mkdir_exists, bind, is_dir_call, ret; by rewrite Hd.
Qed.

Lemma write_video_grows c filename w :
  let res := write_video script_dir encoder_ok c filename w in
  w_fs w ⊆ w_fs res.2 ∧ w_cwd res.2 = w_cwd w ∧ w_log w `prefix_of` w_log res.2.
Proof.
  intros res.
  assert (Hsub : w_fs w ⊆ w_fs res.2).
  { destruct (write_video_steps script_dir encoder_ok c filename w)
      as (r1 & w1 & _ & Hpost & Hrun).
    destruct Hpost as (_ & _ & Hsub & _). simpl in Hsub.
    subst res. rewrite Hrun. destruct r1 as [[] | e]; [| done].
    etrans; [exact Hsub |].
    apply (write_videofile_subseteq c _ _ (mkWorld (w_fs w1) _ _)). }
  destruct (write_video_written script_dir encoder_ok c filename w)
    as (Hcwd & k & Hlog & _).
  split; [done |]. split; [done |]. by exists k.
Qed.

(** [write_video] only adds to the disk: whether it returns or raises, every
    entry that was there is still there with its kind, the working
    directory is the same and the log has only grown. *)
Theorem write_video_only_adds c filename w :
  let res := write_video script_dir encoder_ok c filename w in
  w_fs w ⊆ w_fs res.2 ∧
  w_cwd res.2 = w_cwd w ∧
  w_log w `prefix_of` w_log res.2 ∧
  (∀ p, is_dir (w_fs w) (w_cwd w) p = true → is_dir (w_fs res.2) (w_cwd w) p = true) ∧
  (∀ p, is_file (w_fs w) (w_cwd w) p = true → is_file (w_fs res.2) (w_cwd w) p = true).
Proof.
  intros res.
  destruct (write_video_grows c filename w) as (Hsub & Hcwd & Hlog).
  split; [done |]. split; [done |]. split; [done |].
  split; intros p; [by apply is_dir_mono | by apply is_file_mono].
Qed.

(** When [write_video] has returned, the target is a regular file and every
    directory above it exists, the intermediate ones included. *)
Theorem write_video_leaves_file_and_ancestors c filename w k :
  let target := target_of script_dir filename in
  let res := write_video script_dir encoder_ok c filename w in
  res.1 = Ret tt →
  is_file (w_fs res.2) (w_cwd w) target = true ∧
  is_dir (w_fs res.2) (w_cwd w)
    (mkPath (root target) (take k (names (parent target)))) = true.
Proof.
  intros target res Hret.
  destruct (write_video_written script_dir encoder_ok c filename w)
    as (_ & k' & _ & _ & Hfile).
  destruct (Hfile Hret) as [_ Hf]. split; [done |].
  apply is_file_parent_dir in Hf. by apply is_dir_ancestors.
Qed.

(** Running [write_video] again after it returned returns again and leaves
    the disk as the first run left it: the directory that exists is not
    an error, and the file is written over. *)
Theorem write_video_again c filename w w1 :
  write_video script_dir encoder_ok c filename w = (Ret tt, w1) →
  ∃ w2, write_video script_dir encoder_ok c filename w1 = (Ret tt, w2) ∧
        w_fs w2 = w_fs w1 ∧
        w_log w2
        = w_log w1 ++
          [ev_mkdir (parent (target_of script_dir filename)) true true;
           ev_write_videofile c (as_posix (target_of script_dir filename)) video_args].
Proof.
  intros Hrun1.
  set (target := target_of script_dir filename).
  (* what the first run established *)
  destruct (write_video_written script_dir encoder_ok c filename w)
    as (Hcwd & k & _ & _ & Hfile).
  rewrite Hrun1 in Hcwd, Hfile. simpl in Hcwd, Hfile.
  destruct (Hfile eq_refl) as [_ Hf]. fold target in Hf. rewrite <- Hcwd in Hf.
  assert (Hok : encoder_ok c (as_posix target) = true).
  { destruct (write_video_steps script_dir encoder_ok c filename w)
      as (r1 & w' & _ & _ & Hsteps).
    rewrite Hrun1 in Hsteps. destruct r1 as [[] | e]; [| done].
    apply (f_equal fst) in Hsteps. simpl in Hsteps.
    eapply write_videofile_Ret. symmetry. exact Hsteps. }
  (* the second run *)
  destruct (write_video_steps script_dir encoder_ok c filename w1)
    as (r1 & w' & Hmk & _ & Hsteps). fold target in Hmk, Hsteps.
  rewrite Path_mkdir_existing in Hmk by (simpl; by apply is_file_parent_dir).
  injection Hmk as <- <-. rewrite Hsteps. simpl.
  unfold write_videofile. simpl.
  rewrite parse_as_posix by apply target_components. fold target.
  apply is_file_inv in Hf as (n & d & Hlast & Hwalk & Hn & Hk).
  unfold os_create. rewrite Hlast, Hwalk, decide_False, Hk, Hok by done.
  eexists. split; [done |]. simpl. split; [done |]. by rewrite <- app_assoc.
Qed.

End DiskEffects.

Lemma write_video_leaves_file_and_ancestors_witness :
  let w := mkWorld ∅ [] [] in
  let target := target_of "/srv/demo" "./out/a.mp4" in
  let res := write_video "/srv/demo" (λ _ _, true) opaque_overlay_clip "./out/a.mp4" w in
  is_file (w_fs res.2) (w_cwd w) target = true ∧
  is_dir (w_fs res.2) (w_cwd w)
    (mkPath (root target) (take 2 (names (parent target)))) = true.
Proof.
  apply (write_video_leaves_file_and_ancestors "/srv/demo" (λ _ _, true)
           opaque_overlay_clip "./out/a.mp4" (mkWorld ∅ [] []) 2%nat).
  reflexivity.
Defined.

Lemma write_video_again_witness :
  ∃ w2, write_video "/srv/demo" (λ _ _, true) opaque_overlay_clip "./out/a.mp4"
          (write_video "/srv/demo" (λ _ _, true) opaque_overlay_clip "./out/a.mp4"
             (mkWorld ∅ [] [])).2
        = (Ret tt, w2) ∧
        w_fs w2
        = w_fs (write_video "/srv/demo" (λ _ _, true) opaque_overlay_clip "./out/a.mp4"
                  (mkWorld ∅ [] [])).2 ∧
        w_log w2
        = w_log (write_video "/srv/demo" (λ _ _, true) opaque_overlay_clip "./out/a.mp4"
                   (mkWorld ∅ [] [])).2 ++
          [ev_mkdir (parent (target_of "/srv/demo" "./out/a.mp4")) true true;
           ev_write_videofile opaque_overlay_clip
             (as_posix (target_of "/srv/demo" "./out/a.mp4")) video_args].
Proof.
  apply (write_video_again "/srv/demo" (λ _ _, true) opaque_overlay_clip "./out/a.mp4"
           (mkWorld ∅ [] [])).
  reflexivity.
Defined.

(** ** Where the files go *)

Lemma no_slash_app a b : no_slash a → no_slash b → no_slash (a +:+ b).
Proof. induction a as [| c a IH]; simpl; [done |]. intros [Hc Ha] Hb. auto. Qed.

(** The string handed to the encoder names the target: every component of
    the target is non-empty, is not a dot and holds no slash, and parsing
    the string gives the target back. *)
Theorem target_string_round_trip script_dir filename :
  Forall component (names (target_of script_dir filename)) ∧
  parse_path (as_posix (target_of script_dir filename)) = target_of script_dir filename ∧
  parent (parse_path (as_posix (target_of script_dir filename)))
  = parent (target_of script_dir filename).
Proof.
  pose proof (target_components script_dir filename) as Hc.
  split; [done |]. by rewrite parse_as_posix.
Qed.

Lemma target_out_name script_dir name :
  component name →
  target_of script_dir ("./out/" +:+ name)
  = mkPath (root (here script_dir)) (names (here script_dir) ++ ["out"; name]%string).
Proof.
  intros [Hk Hns]. unfold target_of, truediv, parse_path.
  simpl. rewrite split_slash_single by done.
  rewrite !filter_cons_False, !filter_cons_True, filter_nil by (done || by intros [? ?]).
  done.
Qed.

(** For a suffix without a slash the five demos write into the directory
    [out] next to the script, each to a file of its own. *)
Theorem demos_write_into_out numpy script_dir encoder_ok s :
  no_slash s →
  Forall (λ bd, parent (target_of script_dir (bd.1 +:+ s +:+ ".mp4")) = out_dir script_dir)
    (demo_table numpy script_dir encoder_ok) ∧
  NoDup ((λ bd, target_of script_dir (bd.1 +:+ s +:+ ".mp4"))
           <$> demo_table numpy script_dir encoder_ok).
Proof.
  intros Hs.
  assert (Hcomp : ∀ name, name ≠ EmptyString → name ≠ "."%string → no_slash name →
            component (name +:+ s +:+ ".mp4")).
  { intros name Hne Hdot Hn. split.
    - split; destruct name as [| c [| c' name']]; try done.
      simpl. intros [= -> Heq]. by destruct s.
    - apply no_slash_app; [done |]. apply no_slash_app; [done |]. simpl. by repeat split. }
  assert (Hname : ∀ name, name ≠ EmptyString → name ≠ "."%string → no_slash name →
            target_of script_dir ("./out/" +:+ (name +:+ s +:+ ".mp4"))
            = mkPath (root (here script_dir))
                (names (here script_dir) ++ ["out"%string; name +:+ s +:+ ".mp4"])).
  { intros name Hne Hdot Hn. by apply target_out_name, Hcomp. }
  assert (Hlit : ∀ name, name ∈ ["opaque_overlay_demo_hee"; "mask_ignored_demo_hee";
                                 "background_transparency_demo_hee";
                                 "dual_mask_blend_demo_hee"; "clipped_mask_demo_hee"]%string →
            name ≠ EmptyString ∧ name ≠ "."%string ∧ no_slash name).
  { intros name. rewrite !elem_of_cons, elem_of_nil.
    intros [-> | [-> | [-> | [-> | [-> | []]]]]]; repeat split; done. }
  unfold demo_table. split.
  - repeat (apply Forall_cons; split;
            [apply (out_file_parent script_dir (_ +:+ s +:+ ".mp4")), Hcomp;
             apply Hlit; rewrite !elem_of_cons; auto 10 |]).
    apply Forall_nil_2.
  - simpl.
    change (NoDup
      [target_of script_dir ("./out/" +:+ ("opaque_overlay_demo_hee" +:+ s +:+ ".mp4"));
       target_of script_dir ("./out/" +:+ ("mask_ignored_demo_hee" +:+ s +:+ ".mp4"));
       target_of script_dir ("./out/" +:+ ("background_transparency_demo_hee" +:+ s +:+ ".mp4"));
       target_of script_dir ("./out/" +:+ ("dual_mask_blend_demo_hee" +:+ s +:+ ".mp4"));
       target_of script_dir ("./out/" +:+ ("clipped_mask_demo_hee" +:+ s +:+ ".mp4"))]).
    rewrite !Hname by (apply Hlit; rewrite !elem_of_cons; auto 10).
    repeat (apply NoDup_cons; split;
            [rewrite ?elem_of_cons, elem_of_nil;
             intros H; repeat (destruct H as [H | H]); try done;
             injection H as H; apply app_inv_head in H; discriminate |]).
    apply NoDup_nil_2.
Qed.

Lemma demos_write_into_out_witness :
  Forall (λ bd, parent (target_of "/srv/demo" (bd.1 +:+ "_v2" +:+ ".mp4"))
                = out_dir "/srv/demo")
    (demo_table numpy2 "/srv/demo" (λ _ _, true)) ∧
  NoDup ((λ bd, target_of "/srv/demo" (bd.1 +:+ "_v2" +:+ ".mp4"))
           <$> demo_table numpy2 "/srv/demo" (λ _ _, true)).
Proof.
  apply (demos_write_into_out numpy2 "/srv/demo" (λ _ _, true) "_v2").
  simpl. repeat split; done.
Defined.

(** ** The whole run *)

Section WholeRun.

Variable numpy : numpy_env.
Variable script_dir : string.
Variable encoder_ok : clip → string → bool.

Implicit Types (w : world) (s : string).

Lemma main_run_seq s w :
  main numpy script_dir encoder_ok s w
  = run_seq ((λ bd, bd.2 s) <$> demo_table numpy script_dir encoder_ok) w.
Proof.
  unfold main, demo_table. cbn [fmap list_fmap run_seq snd].
  unfold bind at 1 2 3 4 5 6 7 8 9.
  destruct (opaque_overlay_demo _ _ _ _) as [[[] | ?] w1]; [| done].
  destruct (mask_ignored_demo _ _ _ _) as [[[] | ?] w2]; [| done].
  destruct (background_transparency_demo _ _ _ _ _) as [[[] | ?] w3]; [| done].
  destruct (dual_mask_blend_demo _ _ _ _) as [[[] | ?] w4]; [| done].
  by destruct (clipped_mask_demo _ _ _ _) as [[[] | ?] w5].
Qed.

(** What holds of every step of a sequential run holds of the run: a
    relation between the worlds that is a preorder, and a property of the
    exceptions. *)
Lemma runs_in_order_invariant (R : world → world → Prop) (ok : exn → Prop) ds w res :
  (∀ w0, R w0 w0) → (∀ w0 w1 w2, R w0 w1 → R w1 w2 → R w0 w2) →
  Forall (λ d : M unit, ∀ w0, R w0 (d w0).2 ∧ ∀ e, (d w0).1 = Raise e → ok e) ds →
  runs_in_order ds w res →
  R w res.2 ∧ ∀ e, res.1 = Raise e → ok e.
Proof.
  intros Hrefl Htrans Hall Hrun.
  induction Hrun as [w | d ds w e w' Hd | d ds w w' res Hd Hrun IH].
  - by split.
  - apply Forall_cons in Hall as [Hstep _].
    destruct (Hstep w) as [HR Hok]. rewrite Hd in HR, Hok. simpl in *.
    split; [done |]. intros e' [= <-]. by apply Hok.
  - apply Forall_cons in Hall as [Hstep Hrest].
    destruct (Hstep w) as [HR _]. rewrite Hd in HR. simpl in HR.
    destruct (IH Hrest) as [HR' Hok]. split; [by eapply Htrans | done].
Qed.

(** The files of the steps that returned are all there when the run returns. *)
Lemma runs_in_order_files ds targets w res :
  Forall2 (λ (d : M unit) t, ∀ w0,
             w_fs w0 ⊆ w_fs (d w0).2 ∧ w_cwd (d w0).2 = w_cwd w0 ∧
             ((d w0).1 = Ret tt → is_file (w_fs (d w0).2) (w_cwd w0) t = true))
    ds targets →
  runs_in_order ds w res →
  w_fs w ⊆ w_fs res.2 ∧ w_cwd res.2 = w_cwd w ∧
  (res.1 = Ret tt → Forall (λ t, is_file (w_fs res.2) (w_cwd w) t = true) targets).
Proof.
  intros Hall Hrun. revert targets Hall.
  induction Hrun as [w | d ds w e w' Hd | d ds w w' res Hd Hrun IH]; intros targets Hall.
  - apply Forall2_nil_inv_l in Hall as ->. by repeat split.
  - apply Forall2_cons_inv_l in Hall as (t & targets' & Hstep & _ & ->).
    destruct (Hstep w) as (Hsub & Hcwd & _). rewrite Hd in Hsub, Hcwd. by repeat split.
  - apply Forall2_cons_inv_l in Hall as (t & targets' & Hstep & Hrest & ->).
    destruct (Hstep w) as (Hsub & Hcwd & Hfile). rewrite Hd in Hsub, Hcwd, Hfile.
    simpl in *. destruct (IH targets' Hrest) as (Hsub' & Hcwd' & Hfiles).
    split; [by etrans |]. split; [congruence |].
    intros Hret. apply Forall_cons. split.
    + apply (is_file_mono (w_fs w')); [done |]. by apply Hfile.
    + rewrite <- Hcwd. by apply Hfiles.
Qed.

Lemma demo_step base demo s w :
  (base, demo) ∈ demo_table numpy script_dir encoder_ok →
  let target := target_of script_dir (base +:+ s +:+ ".mp4") in
  let res := demo s w in
  w_fs w ⊆ w_fs res.2 ∧ w_cwd res.2 = w_cwd w ∧ w_log w `prefix_of` w_log res.2 ∧
  (res.1 = Ret tt → is_file (w_fs res.2) (w_cwd w) target = true).
Proof.
  intros Hin target res.
  destruct (demo_written numpy script_dir encoder_ok base demo s w Hin)
    as (Hcwd & k & Hlog & _ & Hret).
  assert (Hsub : w_fs w ⊆ w_fs res.2).
  { destruct (demo_calls_write_video numpy script_dir encoder_ok base demo s w Hin)
      as [[c Hc] | (_ & _ & Hc)]; subst res; rewrite Hc; [| done].
    by destruct (write_video_grows script_dir encoder_ok c (base +:+ s +:+ ".mp4") w). }
  split; [done |]. split; [done |]. split; [by exists k |].
  intros Hr. by apply Hret.
Qed.


(** The run only adds to the disk, whatever the suffix and however it ends:
    no entry is removed or changes its kind, the working directory stays,
    the log only grows. *)
Theorem main_only_adds s w :
  let res := main numpy script_dir encoder_ok s w in
  w_fs w ⊆ w_fs res.2 ∧ w_cwd res.2 = w_cwd w ∧ w_log w `prefix_of` w_log res.2 ∧
  (∀ p, is_dir (w_fs w) (w_cwd w) p = true → is_dir (w_fs res.2) (w_cwd w) p = true) ∧
  (∀ p, is_file (w_fs w) (w_cwd w) p = true → is_file (w_fs res.2) (w_cwd w) p = true).
Proof.
  intros res.
  assert (H : (w_fs w ⊆ w_fs res.2 ∧ w_cwd res.2 = w_cwd w ∧
               w_log w `prefix_of` w_log res.2) ∧ ∀ e, res.1 = Raise e → True).
  { apply (runs_in_order_invariant
             (λ w0 w1, w_fs w0 ⊆ w_fs w1 ∧ w_cwd w1 = w_cwd w0 ∧
                       w_log w0 `prefix_of` w_log w1) (λ _, True)
             ((λ bd, bd.2 s) <$> demo_table numpy script_dir encoder_ok)).
    - by repeat split.
    - intros w0 w1 w2 (? & ? & ?) (? & ? & ?).
      split; [by etrans |]. split; [congruence | by etrans].
    - apply Forall_fmap, Forall_forall. intros [base demo] Hin w0. simpl.
      destruct (demo_step base demo s w0 Hin) as (? & ? & ? & _). by repeat split.
    - subst res. rewrite main_run_seq. apply run_seq_in_order. }
  destruct H as [(Hsub & Hcwd & Hlog) _].
  split; [done |]. split; [done |]. split; [done |].
  split; intros p; [by apply is_dir_mono | by apply is_file_mono].
Qed.

(** When the run returns, the file of each of the five demos is a regular
    file on the disk, for every suffix. *)
Theorem main_leaves_five_files s w :
  let res := main numpy script_dir encoder_ok s w in
  res.1 = Ret tt →
  Forall (λ bd, is_file (w_fs res.2) (w_cwd w)
                  (target_of script_dir (bd.1 +:+ s +:+ ".mp4")) = true)
    (demo_table numpy script_dir encoder_ok).
Proof.
  intros res Hret.
  destruct (runs_in_order_files
              ((λ bd, bd.2 s) <$> demo_table numpy script_dir encoder_ok)
              ((λ bd, target_of script_dir (bd.1 +:+ s +:+ ".mp4"))
                 <$> demo_table numpy script_dir encoder_ok) w res)
    as (_ & _ & Hfiles).
  - apply Forall2_fmap, Forall_Forall2_diag, Forall_forall.
    intros [base demo] Hin w0. simpl.
    destruct (demo_step base demo s w0 Hin) as (? & ? & _ & ?). by repeat split.
  - subst res. rewrite main_run_seq. apply run_seq_in_order.
  - by apply Forall_fmap in Hfiles.
Qed.

End WholeRun.

Lemma main_leaves_five_files_witness :
  let res := main numpy2 "/srv/demo" (λ _ _, true) "_v2" (mkWorld ∅ [] []) in
  Forall (λ bd, is_file (w_fs res.2) []
                  (target_of "/srv/demo" (bd.1 +:+ "_v2" +:+ ".mp4")) = true)
    (demo_table numpy2 "/srv/demo" (λ _ _, true)).
Proof.
  apply (main_leaves_five_files numpy2 "/srv/demo" (λ _ _, true) "_v2" (mkWorld ∅ [] [])).
  vm_compute. reflexivity.
Defined.
